(** * django_elasticsearch_dsl: documents.py and search.py

    A shallow embedding of [DocType] (index naming, field preparation,
    action generation, multi-cluster dispatch) and of [Search]
    (queryset materialisation, query body defaults), with the properties
    the specification states about them.

    Python values are modelled by the shapes the code distinguishes:
    an index argument is a string or a list/tuple of strings, a dict is a
    [gmap], [settings] is a record whose optional attributes are [option]s
    read through [getattr], and a raised exception is the [Raise] branch
    of [result]. *)

From stdpp Require Import gmap strings list sorting.

Open Scope string_scope.
Open Scope list_scope.
Open Scope nat_scope.

(** ** Exceptions and results *)

(** The exceptions the two modules raise themselves, and
    [ExternalError] for whatever a hook, the client library or a
    cluster raises. *)
Inductive exn : Type :=
| UnboundLocalError (variable : string)
| ModelFieldNotMappedError (message : string)
| ZeroDivisionError
| TypeError (message : string)
| ExternalError (what : string).

Inductive result (A : Type) : Type :=
| Ok (a : A)
| Raise (e : exn).

Arguments Ok {A} a.
Arguments Raise {A} e.

Definition rbind {A B} (r : result A) (k : A → result B) : result B :=
  match r with
  | Ok a => k a
  | Raise e => Raise e
  end.

Definition is_ok {A} (r : result A) : bool :=
  match r with Ok _ => true | Raise _ => false end.

(** ** Settings *)

(** [django.conf.settings] as the two modules read it.  Attributes read
    with [getattr(settings, name, default)] are optional. *)
Record Settings : Type := {
  ELASTICSEARCH_DSL_TRANSLATION_ENABLED : option bool;
  LANGUAGE_ENGLISH : string;
  LANGUAGE_ANALYSERS : list string;
  ES_INDEX_PREFIX : option string;
  ES_INDEX_SUFFIX : option string;
  (* the keys of the ELASTICSEARCH_DSL dict, in iteration order *)
  ELASTICSEARCH_DSL : list string;
  ELASTICSEARCH_DSL_LOAD_PER_QUERY : option Z;
  ELASTICSEARCH_DSL_CHUNK_SIZE : option N;
  ELASTICSEARCH_DSL_CHUNK_BYTES : option N
}.

Definition getattr {A} (attribute : option A) (default_value : A) : A :=
  default default_value attribute.

(** Truth value of a Python string: empty is false. *)
Definition truthy (s : string) : bool :=
  match s with
  | EmptyString => false
  | String _ _ => true
  end.

(** [a or b] on an optional string. *)
Definition str_or (a : option string) (b : string) : string :=
  match a with
  | Some s => if truthy s then s else b
  | None => b
  end.

(** ** Index naming *)

(** The [index] argument: a single name, or a list/tuple of names. *)
Inductive pyindex : Type :=
| IndexName (name : string)
| IndexSeq (names : list string).

Section IndexNaming.

Variable settings : Settings.

(** [elasticsearch_dsl.Document._default_index], inherited by [DocType]. *)
Variable _default_index : pyindex → pyindex.

Definition _format_index_language (index language : string) : string :=
  index +:+ "-" +:+ language.

(** The ['{prefix}{index}{language}{suffix}'.format(...)] expression. *)
Definition custom_index_format
    (index_prefix : string) (i : string) (language : string)
    (language_dsl_enabled : bool) (index_suffix : string) : string :=
  (if truthy index_prefix then index_prefix +:+ "-" else "")
  +:+ i
  +:+ (if language_dsl_enabled then "-" +:+ language else "")
  +:+ (if truthy index_suffix then "-" +:+ index_suffix else "").

Definition get_custom_index_name
    (index : pyindex) (language : option string) : result pyindex :=
  let language_dsl_enabled :=
    getattr (ELASTICSEARCH_DSL_TRANSLATION_ENABLED settings) false in
  let language := str_or language (LANGUAGE_ENGLISH settings) in
  let index_prefix := getattr (ES_INDEX_PREFIX settings) "" in
  let index_suffix := getattr (ES_INDEX_SUFFIX settings) "" in
  rbind
    (match index with
     | IndexSeq names =>
         (* for i in index: custom_indexes.append(...) *)
         Ok (IndexSeq
               (fold_left
                  (λ custom_indexes i,
                     custom_indexes ++
                     [custom_index_format index_prefix i language
                        language_dsl_enabled index_suffix])
                  names []))
     | IndexName _ =>
         (* index=i: the loop variable of the other branch, never bound *)
         Raise (UnboundLocalError "i")
     end)
    (λ index,
       if negb (language_dsl_enabled && truthy index_prefix
                && truthy index_suffix)
       then Ok (_default_index index)
       else Ok index).

End IndexNaming.

(** The name the specification describes: the present segments among
    prefix, base, language and suffix, joined by single hyphens. *)
Definition spec_segments
    (prefix base language : string) (translation : bool) (suffix : string)
    : list string :=
  (if truthy prefix then [prefix] else [])
  ++ [base]
  ++ (if translation then [language] else [])
  ++ (if truthy suffix then [suffix] else []).

Fixpoint hyphen_join (segments : list string) : string :=
  match segments with
  | [] => ""
  | [s] => s
  | s :: rest => s +:+ "-" +:+ hyphen_join rest
  end.

Definition spec_index_name
    (prefix base language : string) (translation : bool) (suffix : string)
    : string :=
  hyphen_join (spec_segments prefix base language translation suffix).

(** ** The translation context

    [django.utils.translation] keeps one active language per thread.
    The state is what [get_language()] returns; [activate] and
    [deactivate_all] are the two writes [override] performs. *)

Definition Lang : Type := option string.

(** Computations over the translation context that may raise. *)
Definition L (A : Type) : Type := Lang → result A * Lang.

Definition get_language (active : Lang) : option string := active.
Definition activate (language : string) (_ : Lang) : Lang := Some language.
Definition deactivate_all (_ : Lang) : Lang := None.

(** A computation that only observes the active language. *)
Definition observe {A} (f : Lang → result A) : L A :=
  λ active, (f active, active).

(** [with translation.override(language): body].  [__enter__] saves
    [get_language()] and activates [language] ([deactivate_all] for
    [None]); [__exit__] runs on return and on exception alike and
    re-activates what was saved. *)
Definition override {A} (language : option string) (body : L A) : L A :=
  λ active,
    let old_language := get_language active in
    let entered :=
      match language with
      | Some l => activate l active
      | None => deactivate_all active
      end in
    let '(outcome, after) := body entered in
    let exited :=
      match old_language with
      | None => deactivate_all after
      | Some old => activate old after
      end in
    (outcome, exited).

(** ** Documents *)

(** How a preparation hook is called: [prep_func(instance)] or
    [prep_func(instance, related_to_ignore=...)]. *)
Inductive hook_call (Related : Type) : Type :=
| Positional
| WithRelated (related_to_ignore : option Related).

Arguments Positional {Related}.
Arguments WithRelated {Related} related_to_ignore.

(** An entry of [self._fields]. *)
Record Field : Type := {
  is_DEDField : bool;
  _path : list string
}.

Definition with_path (field : Field) (path : list string) : Field :=
  {| is_DEDField := is_DEDField field; _path := path |}.

(** A bulk action, the dict [_prepare_action] builds. *)
Record Action (PK Value : Type) : Type := {
  _op_type : string;
  _index : pyindex;
  _type : string;
  _id : PK;
  _source : option (gmap string Value)
}.

Arguments _op_type {PK Value} _.
Arguments _index {PK Value} _.
Arguments _type {PK Value} _.
Arguments _id {PK Value} _.
Arguments _source {PK Value} _.

(** A [DocType] instance, as far as the methods below read it.
    [attribute] is [getattr(self, name, None)] on the preparation hooks
    a subclass defines; hooks and [translate_field] observe the active
    language. *)
Record DocType (Instance Value Related : Type) : Type := {
  _related_instance_to_ignore : option Related;
  _fields : list (string * Field);
  attribute :
    string → option (Instance → hook_call Related → Lang → result Value);
  translate_field : string → Value → bool → Lang → result Value;
  _index_name : pyindex;
  _index_using : string;
  _doc_type_name : string;
  queryset_pagination : option nat;
  auto_refresh : bool
}.

Arguments _related_instance_to_ignore {Instance Value Related} _.
Arguments _fields {Instance Value Related} _.
Arguments attribute {Instance Value Related} _ _.
Arguments translate_field {Instance Value Related} _ _ _ _ _.
Arguments _index_name {Instance Value Related} _.
Arguments _index_using {Instance Value Related} _.
Arguments _doc_type_name {Instance Value Related} _.
Arguments queryset_pagination {Instance Value Related} _.
Arguments auto_refresh {Instance Value Related} _.

(** [DocType.translate_field] as the base class defines it. *)
Definition translate_field_default {Value}
    (field_name : string) (value : Value) (fail_silently : bool)
    : Lang → result Value :=
  λ _, Ok value.

(** ** [django.core.paginator.Paginator] *)

(** [ceil(max(1, count) / per_page)], with orphans 0 and an empty first
    page allowed, as [Paginator(object_list, per_page)] sets them.  A
    page size is a natural number; size 0 divides by zero. *)
Definition num_pages (count per_page : nat) : result nat :=
  match per_page with
  | 0 => Raise ZeroDivisionError
  | S _ => Ok ((Nat.max 1 count + per_page - 1) / per_page)
  end.

(** [range(1, num_pages + 1)]. *)
Definition page_range (count per_page : nat) : result (list nat) :=
  rbind (num_pages count per_page) (λ n, Ok (seq 1 n)).

(** [paginator.page(number).object_list]: [object_list[bottom:top]]. *)
Definition page_object_list {A} (object_list : list A) (per_page number : nat)
    : list A :=
  let bottom := (number - 1) * per_page in
  let top := Nat.min (bottom + per_page) (length object_list) in
  take (top - bottom) (drop bottom object_list).

(** ** Field preparation and action generation *)

Section Preparation.

Context {Instance Value Related PK : Type}.

Variable settings : Settings.
Variable _default_index : pyindex → pyindex.

(** [object_instance.pk]. *)
Variable pk : Instance → PK.

(** [DEDField.get_value_from_instance(instance, related_to_ignore)] of
    fields.py: walks the field's [_path] on the instance. *)
Variable get_value_from_instance :
  Field → Instance → option Related → Lang → result Value.

Local Abbreviation Doc := (DocType Instance Value Related).

(** The value one iteration of the loop in [prepare] computes for the
    field [name], before it is stored. *)
Definition prepare_field
    (self : Doc) (instance : Instance) (fail_silently : bool)
    (name : string) (field : Field) (active : Lang) : result Value :=
  let field := if decide (_path field = []) then with_path field [name]
               else field in
  rbind
    (match attribute self ("prepare_" +:+ name +:+ "_with_related") with
     | Some prep_func =>
         prep_func instance
           (WithRelated (_related_instance_to_ignore self)) active
     | None =>
         match attribute self ("prepare_" +:+ name) with
         | Some prep_func => prep_func instance Positional active
         | None =>
             get_value_from_instance field instance
               (_related_instance_to_ignore self) active
         end
     end)
    (λ field_value,
       if getattr (ELASTICSEARCH_DSL_TRANSLATION_ENABLED settings) false
       then translate_field self name field_value fail_silently active
       else Ok field_value).

(** The loop [for name, field in iteritems(self._fields)] over the
    fields still to visit, [data] being the dict built so far. *)
Fixpoint prepare_loop
    (self : Doc) (instance : Instance) (fail_silently : bool)
    (fields : list (string * Field)) (data : gmap string Value)
    (active : Lang) : result (gmap string Value) :=
  match fields with
  | [] => Ok data
  | (name, field) :: fields =>
      if negb (is_DEDField field)
      then prepare_loop self instance fail_silently fields data active
      else
        rbind (prepare_field self instance fail_silently name field active)
          (λ field_value,
             prepare_loop self instance fail_silently fields
               (<[name := field_value]> data) active)
  end.

Definition prepare
    (self : Doc) (instance : Instance) (fail_silently : bool)
    (active : Lang) : result (gmap string Value) :=
  prepare_loop self instance fail_silently (_fields self) ∅ active.

(** The dict literal of [_prepare_action], its values evaluated in
    source order under the active language. *)
Definition action_dict
    (self : Doc) (object_instance : Instance) (action : string)
    (language : option string) (fail_silently : bool)
    (active : Lang) : result (Action PK Value) :=
  rbind (get_custom_index_name settings _default_index
           (_index_name self) language)
    (λ index,
       rbind
         (if negb (String.eqb action "delete")
          then rbind (prepare self object_instance fail_silently active)
                 (λ data, Ok (Some data))
          else Ok None)
         (λ source,
            Ok {| _op_type := action;
                  _index := index;
                  _type := _doc_type_name self;
                  _id := pk object_instance;
                  _source := source |})).

Definition _prepare_action
    (self : Doc) (object_instance : Instance) (action : string)
    (language : option string) (fail_silently : bool)
    : L (Action PK Value) :=
  override language
    (observe (action_dict self object_instance action language
                fail_silently)).

(** A generator is the sequence of its suspended steps; each step, when
    the consumer asks for the next item, yields an action or raises. *)
Definition Generator : Type := list (L (Action PK Value)).

Definition raising_step (e : exn) : L (Action PK Value) :=
  λ active, (Raise e, active).

(** The two-level loop over [paginator.page_range] and over each page's
    [object_list]; [body] is what the innermost loop yields for one
    object. *)
Definition paginated
    (object_list : list Instance) (per_page : nat)
    (body : Instance → Generator) : Generator :=
  match page_range (length object_list) per_page with
  | Raise e => [raising_step e]
  | Ok pages =>
      flat_map
        (λ page,
           flat_map body (page_object_list object_list per_page page))
        pages
  end.

(** Without translation [_prepare_action] is called with the object and
    the action only: [language] and [fail_silently] take their defaults,
    [None] and [True]. *)
Definition _get_actions
    (self : Doc) (object_list : list Instance) (action : string)
    (fail_silently : bool) : Generator :=
  if getattr (ELASTICSEARCH_DSL_TRANSLATION_ENABLED settings) false then
    match queryset_pagination self with
    | Some per_page =>
        paginated object_list per_page
          (λ object_instance,
             map (λ language,
                    _prepare_action self object_instance action
                      (Some language) fail_silently)
               (LANGUAGE_ANALYSERS settings))
    | None =>
        flat_map
          (λ object_instance,
             map (λ language,
                    _prepare_action self object_instance action
                      (Some language) fail_silently)
               (LANGUAGE_ANALYSERS settings))
          object_list
    end
  else
    match queryset_pagination self with
    | Some per_page =>
        paginated object_list per_page
          (λ object_instance,
             [_prepare_action self object_instance action None true])
    | None =>
        map (λ object_instance,
               _prepare_action self object_instance action None true)
          object_list
    end.

(** Consuming a generator to exhaustion: the actions yielded, the
    exception that ended it (if any), and the translation context left
    behind.  A generator that raised is finished. *)
Fixpoint drain (steps : Generator) (active : Lang)
    : list (Action PK Value) * option exn * Lang :=
  match steps with
  | [] => ([], None, active)
  | step :: steps =>
      match step active with
      | (Ok yielded, active) =>
          let '(rest, raised, active) := drain steps active in
          (yielded :: rest, raised, active)
      | (Raise e, active) => ([], Some e, active)
      end
  end.

End Preparation.

(** ** Multi-cluster dispatch *)

(** Keyword arguments passed through to the client library. *)
Inductive kwval : Type :=
| KwBool (b : bool)
| KwNum (n : N)
| KwStr (s : string).

Definition kw_truth (v : kwval) : bool :=
  match v with
  | KwBool b => b
  | KwNum n => negb (N.eqb n 0)
  | KwStr s => truthy s
  end.

(** The [actions] argument of [bulk]: a list, which every consumer
    iterates afresh, or a reference to a generator object, which all
    consumers share. *)
Inductive actions_arg (PK Value : Type) : Type :=
| ActionList (items : list (Action PK Value))
| ActionIter (ref : nat).

Arguments ActionList {PK Value} items.
Arguments ActionIter {PK Value} ref.

(** One call into the client library, with the connection alias it
    resolved to. *)
Inductive Call (PK Value : Type) : Type :=
| BulkCall (client : string) (received : list (Action PK Value))
| SaveCall (alias : string)
| DeleteCall (alias : string).

Arguments BulkCall {PK Value} client received.
Arguments SaveCall {PK Value} alias.
Arguments DeleteCall {PK Value} alias.

Definition call_alias {PK Value} (c : Call PK Value) : string :=
  match c with
  | BulkCall client _ => client
  | SaveCall alias => alias
  | DeleteCall alias => alias
  end.

(** What a dispatch can touch: the thread's translation context, the
    generator objects alive (by identity), and the log of calls made to
    clusters, oldest first. *)
Record World (PK Value : Type) : Type := {
  language : Lang;
  generators : gmap nat (list (L (Action PK Value)));
  calls : list (Call PK Value)
}.

Arguments language {PK Value} _.
Arguments generators {PK Value} _.
Arguments calls {PK Value} _.

Definition set_calls {PK Value} (w : World PK Value)
    (cs : list (Call PK Value)) : World PK Value :=
  {| language := language w; generators := generators w; calls := cs |}.

Section Dispatch.

Context {Instance Value Related PK BulkResult SaveResult : Type}.

Variable settings : Settings.
Variable _default_index : pyindex → pyindex.
Variable pk : Instance → PK.
Variable get_value_from_instance :
  Field → Instance → option Related → Lang → result Value.

(** What the cluster behind a connection answers to
    [elasticsearch.helpers.bulk], [Document.save] and [Document.delete]
    of elasticsearch_dsl. *)
Variable cluster_bulk :
  string → list (Action PK Value) → gmap string kwval → result BulkResult.
Variable cluster_save : string → gmap string kwval → result SaveResult.
Variable cluster_delete : string → gmap string kwval → result unit.

Local Abbreviation Doc := (DocType Instance Value Related).
Local Abbreviation W := (World PK Value).

(** State-and-exception monad of a dispatch. *)
Definition M (A : Type) : Type := W → result A * W.

Definition ret {A} (a : A) : M A := λ w, (Ok a, w).

Definition bind {A B} (m : M A) (k : A → M B) : M B :=
  λ w, match m w with
       | (Ok a, w) => k a w
       | (Raise e, w) => (Raise e, w)
       end.

Notation "x <- m ;; k" := (bind m (λ x, k))
  (at level 100, m at next level, right associativity).
Notation "m ;; k" := (bind m (λ _, k))
  (at level 100, right associativity).

Definition raise {A} (e : exn) : M A := λ w, (Raise e, w).

Definition log (c : Call PK Value) : M unit :=
  λ w, (Ok tt, set_calls w (calls w ++ [c])).

(** [for x in xs: body(x)]. *)
Fixpoint for_each {A} (xs : list A) (body : A → M unit) : M unit :=
  match xs with
  | [] => ret tt
  | x :: xs => body x ;; for_each xs body
  end.

(** Iterating [actions] to the end, as the client library does.  A list
    is left as it is; a generator is advanced to exhaustion, in place. *)
Definition consume (actions : actions_arg PK Value)
    : W → list (Action PK Value) * option exn * W :=
  λ w,
    match actions with
    | ActionList items => (items, None, w)
    | ActionIter ref =>
        let '(items, raised, active) :=
          drain (default [] (generators w !! ref)) (language w) in
        (items, raised,
         {| language := active;
            generators := <[ref := []]> (generators w);
            calls := calls w |})
    end.

(** [self._get_connection(using)], as the methods below call it: with
    no alias, for the connection the document's index is bound to, or
    with a key of [settings.ELASTICSEARCH_DSL].  The keys name
    connections and are taken non-empty: elasticsearch_dsl resolves an
    empty alias like a missing one (see [_get_using] of the
    classmethods, which receive the caller's alias). *)
Definition _get_connection (self : Doc) (alias : option string) : string :=
  default (_index_using self) alias.

(** [elasticsearch.helpers.bulk(client=..., actions=..., **kwargs)], as
    one exchange with the cluster.  The library iterates [actions] and
    sends what it pulls chunk by chunk; with a cluster that accepts its
    chunks it has pulled everything when it returns, and that is the
    exchange recorded here.  An exception of the iterator ends the call
    with that exception.  A cluster that refuses a chunk ends it at that
    chunk, possibly before the iterator is exhausted: where a statement
    below depends on how far a generator was advanced, it is made for
    clusters that accept. *)
Definition helpers_bulk
    (client : string) (actions : actions_arg PK Value)
    (kwargs : gmap string kwval) : M BulkResult :=
  λ w,
    let '(received, raised, w) := consume actions w in
    match log (BulkCall client received) w with
    | (_, w) =>
        match raised with
        | Some e => (Raise e, w)
        | None => (cluster_bulk client received kwargs, w)
        end
    end.

(** [super().save(using=..., **kwargs)] and [super().delete(...)]. *)
Definition super_save (self : Doc) (alias : option string)
    (kwargs : gmap string kwval) : M SaveResult :=
  let alias := _get_connection self alias in
  log (SaveCall alias) ;; λ w, (cluster_save alias kwargs, w).

Definition super_delete (self : Doc) (alias : option string)
    (kwargs : gmap string kwval) : M unit :=
  let alias := _get_connection self alias in
  log (DeleteCall alias) ;; λ w, (cluster_delete alias kwargs, w).

Definition bulk (self : Doc) (actions : actions_arg PK Value)
    (kwargs : gmap string kwval) : M BulkResult :=
  for_each (ELASTICSEARCH_DSL settings)
    (λ connection_alias,
       if negb (String.eqb connection_alias "default")
       then helpers_bulk
              (_get_connection self (Some connection_alias)) actions kwargs ;;
            ret tt
       else ret tt) ;;
  helpers_bulk (_get_connection self None) actions kwargs.

Definition delete (self : Doc) (kwargs : gmap string kwval) : M unit :=
  for_each (ELASTICSEARCH_DSL settings)
    (λ connection_alias,
       super_delete self (Some connection_alias) kwargs).

Definition save (self : Doc) (kwargs : gmap string kwval) : M SaveResult :=
  for_each (ELASTICSEARCH_DSL settings)
    (λ connection_alias,
       if negb (String.eqb connection_alias "default")
       then super_save self (Some connection_alias) kwargs ;; ret tt
       else ret tt) ;;
  super_save self None kwargs.

(** The [thing] argument of [update]. *)
Inductive thing_arg : Type :=
| OneModel (instance : Instance)
| ManyModels (instances : list Instance).

(** Creating a generator object: nothing runs yet. *)
Definition new_generator (steps : list (L (Action PK Value))) : M nat :=
  λ w,
    let ref := fresh (dom (generators w)) in
    (Ok ref,
     {| language := language w;
        generators := <[ref := steps]> (generators w);
        calls := calls w |}).

Definition update
    (self : Doc) (thing : thing_arg) (refresh : option bool)
    (action : string) (kwargs : gmap string kwval) : M BulkResult :=
  let fail_silently :=
    from_option kw_truth true (kwargs !! "fail_silently") in
  let kwargs := base.delete "fail_silently" kwargs in
  let kwargs :=
    match refresh with
    | Some true => <["refresh" := KwBool true]> kwargs
    | Some false => kwargs
    | None =>
        if auto_refresh self then <["refresh" := KwBool true]> kwargs
        else kwargs
    end in
  let object_list :=
    match thing with
    | OneModel instance => [instance]
    | ManyModels instances => instances
    end in
  actions <- new_generator
              (_get_actions settings _default_index pk
                 get_value_from_instance self object_list action
                 fail_silently) ;;
  match kwargs !! "chunk_size", kwargs !! "max_chunk_bytes" with
  | None, None =>
      bulk self (ActionIter actions)
        (<["chunk_size" :=
             KwNum (getattr (ELASTICSEARCH_DSL_CHUNK_SIZE settings) 500%N)]>
           (<["max_chunk_bytes" :=
                KwNum (getattr (ELASTICSEARCH_DSL_CHUNK_BYTES settings)
                         (100 * 1024 * 1024)%N)]> kwargs))
  | _, _ => raise (TypeError "got multiple values for keyword argument")
  end.

End Dispatch.

(** ** Model fields and search fields *)

(** The classes of [django.db.models] fields.  The twenty the table
    below names, and any other class (relations, decimals, UUIDs, user
    subclasses, ...) by its qualified name. *)
Module models.

Inductive field_class : Type :=
| AutoField
| BigIntegerField
| BooleanField
| CharField
| DateField
| DateTimeField
| EmailField
| FileField
| FilePathField
| FloatField
| ImageField
| IntegerField
| NullBooleanField
| PositiveIntegerField
| PositiveSmallIntegerField
| SlugField
| SmallIntegerField
| TextField
| TimeField
| URLField
| OtherField (qualified_name : string).

#[global] Instance field_class_eq_dec : EqDecision field_class.
Proof. solve_decision. Defined.

(** A model field instance: only its class matters here. *)
Record Field : Type := { __class__ : field_class }.

End models.

(** The field classes of fields.py that the table maps to. *)
Module fields.

Inductive field_class : Type :=
| BooleanField
| DateField
| DoubleField
| FileField
| IntegerField
| KeywordField
| LongField
| ShortField
| TextField.

(** An instance built by [cls(attr=field_name)]. *)
Record instance : Type := { class_of : field_class; attr : string }.

End fields.

(** The dict [model_field_class_to_field_class], in source order. *)
Definition model_field_class_to_field_class
    : list (models.field_class * fields.field_class) :=
  [ (models.AutoField, fields.IntegerField);
    (models.BigIntegerField, fields.LongField);
    (models.BooleanField, fields.BooleanField);
    (models.CharField, fields.TextField);
    (models.DateField, fields.DateField);
    (models.DateTimeField, fields.DateField);
    (models.EmailField, fields.TextField);
    (models.FileField, fields.FileField);
    (models.FilePathField, fields.KeywordField);
    (models.FloatField, fields.DoubleField);
    (models.ImageField, fields.FileField);
    (models.IntegerField, fields.IntegerField);
    (models.NullBooleanField, fields.BooleanField);
    (models.PositiveIntegerField, fields.IntegerField);
    (models.PositiveSmallIntegerField, fields.ShortField);
    (models.SlugField, fields.KeywordField);
    (models.SmallIntegerField, fields.ShortField);
    (models.TextField, fields.TextField);
    (models.TimeField, fields.LongField);
    (models.URLField, fields.TextField) ].

(** [d[key]] on a dict given by its items: the value, or [None] where
    Python raises [KeyError]. *)
Fixpoint dict_getitem {K V} `{EqDecision K}
    (items : list (K * V)) (key : K) : option V :=
  match items with
  | [] => None
  | (k, v) :: items =>
      if decide (k = key) then Some v else dict_getitem items key
  end.

Definition not_mapped_message (field_name : string) : string :=
  "Cannot convert model field " +:+ field_name
  +:+ " to an Elasticsearch field!".

Definition to_field (field_name : string) (model_field : models.Field)
    : result fields.instance :=
  match dict_getitem model_field_class_to_field_class
          (models.__class__ model_field) with
  | Some cls => Ok {| fields.class_of := cls; fields.attr := field_name |}
  | None => Raise (ModelFieldNotMappedError (not_mapped_message field_name))
  end.

(** ** Definition of a document class *)

(** Modelled from the spec: the definition of a document class, which
    the package does where a document is registered, outside
    documents.py.  The specification (sections 4.1, 6 and 7): the
    relational layer gives the declared fields by introspection (field
    name to field class); each is resolved to a search field type when
    the document class is defined, and an unmapped type is "raised
    eagerly at schema-definition time" and "surfaces immediately to the
    defining code".  The resolution of one field is [to_field], from the
    source; the fields are resolved in the order they are declared. *)
Fixpoint define_fields (declared : list (string * models.Field))
    : result (list (string * fields.instance)) :=
  match declared with
  | [] => Ok []
  | (field_name, model_field) :: declared =>
      rbind (to_field field_name model_field)
        (λ field,
           rbind (define_fields declared)
             (λ mapping, Ok ((field_name, field) :: mapping)))
  end.

(** Modelled from the spec: defining the document class as the first
    step of a program that goes on to synchronise.  Definition reads the
    declaration only: no cluster is called and no generator is made. *)
Definition define_document {PK Value}
    (declared : list (string * models.Field))
    : M (PK := PK) (Value := Value) (list (string * fields.instance)) :=
  λ w, (define_fields declared, w).

(** ** search.py *)

Module search.

(** Values of a request body: scalars, and nested clauses (queries,
    sorts, aggregations) by their serialised text. *)
Inductive json : Type :=
| JNull
| JBool (b : bool)
| JInt (z : Z)
| JStr (s : string)
| JNested (text : string).

(** A hit of a response: [hit.meta.id]. *)
Record Hit (PK : Type) : Type := { meta_id : PK }.
Arguments meta_id {PK} _.

(** A [Search] object: the request it describes, the [_source] filter,
    the model it is bound to, and [_response] when a response is cached
    on it ([hasattr]). *)
Record Search (PK Request Model : Type) : Type := {
  request : Request;
  _source : option (gmap string (list string));
  _model : Model;
  _response : option (list (Hit PK))
}.

Arguments request {PK Request Model} _.
Arguments _source {PK Request Model} _.
Arguments _model {PK Request Model} _.
Arguments _response {PK Request Model} _.

(** [When(pk=pk, then=pos)] and the expressions [order_by] receives. *)
Record When (PK : Type) : Type := { when_pk : PK; then_ : nat }.
Arguments when_pk {PK} _.
Arguments then_ {PK} _.

Inductive order_expr (PK : Type) : Type :=
| Case (whens : list (When PK)).
Arguments Case {PK} whens.

(** The queryset built: [model.objects.filter(pk__in=...)], and the
    expression given to [order_by], if any. *)
Record QuerySet (PK Model : Type) : Type := {
  model : Model;
  pk__in : list PK;
  order_by : option (order_expr PK)
}.
Arguments model {PK Model} _.
Arguments pk__in {PK Model} _.
Arguments order_by {PK Model} _.

Section Materializer.

Context {PK Request Model Row : Type} `{EqDecision PK}.

Variable settings : Settings.

(** What the cluster answers when a search is sent to it. *)
Variable es_search : Search PK Request Model → list (Hit PK).

(** [Search.to_dict] of elasticsearch_dsl, the parent class. *)
Variable super_to_dict :
  Search PK Request Model → bool → gmap string json → gmap string json.

(** The primary key of a table row. *)
Variable row_pk : Row → PK.

Local Abbreviation Srch := (Search PK Request Model).

(** [_clone] of a [Search]: the parent's copy, a new object of the class
    with no response on it, with the bound model copied onto it.  (The
    copy of a [SearchNone] is built by its own [__init__] and has the
    empty response again; [to_queryset] below clones only a search
    that has no response.) *)
Definition _clone (self : Srch) : Srch :=
  {| request := request self;
     _source := _source self;
     _model := _model self;
     _response := None |}.

(** [self.source(excludes=[...])]: a clone whose [_source] dict has its
    ["excludes"] entry set. *)
Definition source_excludes (self : Srch) (patterns : list string) : Srch :=
  let s := _clone self in
  {| request := request s;
     _source := Some (<["excludes" := patterns]> (default ∅ (_source s)));
     _model := _model s;
     _response := _response s |}.

(** [enumerate(pks)] from position [pos] on, as [When] clauses. *)
Fixpoint whens_from (pos : nat) (pks : list PK) : list (When PK) :=
  match pks with
  | [] => []
  | pk :: pks => {| when_pk := pk; then_ := pos |} :: whens_from (S pos) pks
  end.

(** [to_queryset]: the searches sent to the cluster, and the queryset. *)
Definition to_queryset (self : Srch) (keep_order : bool)
      : list Srch * QuerySet PK Model :=
  let '(sent, s) :=
    match _response self with
    | None =>
        let s := source_excludes self ["*"] in
        ([s], es_search s)
    | Some response => ([], response)
    end in
  let pks := map meta_id s in
  let qs := {| model := _model self; pk__in := pks; order_by := None |} in
  let qs :=
    if keep_order
    then {| model := model qs;
            pk__in := pk__in qs;
            order_by := Some (Case (whens_from 0 pks)) |}
    else qs in
  (sent, qs).

Definition to_dict (self : Srch) (count : bool) (kwargs : gmap string json)
    : gmap string json :=
  let query_body := super_to_dict self count kwargs in
  if negb count then
    let query_body :=
      match query_body !! "from" with
      | None => <["from" := JInt 0]> query_body
      | Some _ => query_body
      end in
    match query_body !! "size" with
    | None =>
        <["size" :=
            JInt (getattr (ELASTICSEARCH_DSL_LOAD_PER_QUERY settings) 10%Z)]>
          query_body
    | Some _ => query_body
    end
  else query_body.

(** *** What the database returns for a queryset *)

(** [CASE WHEN pk = .. THEN .. END]: the first matching clause, NULL
    when none matches. *)
Fixpoint case_value (whens : list (When PK)) (pk : PK) : option nat :=
  match whens with
  | [] => None
  | w :: whens =>
      if decide (when_pk w = pk) then Some (then_ w)
      else case_value whens pk
  end.

Definition order_key (e : order_expr PK) (row : Row) : option nat :=
  match e with
  | Case whens => case_value whens (row_pk row)
  end.

(** Ascending order on keys, NULL first. *)
Definition key_le (a b : option nat) : Prop :=
  match a, b with
  | None, _ => True
  | Some _, None => False
  | Some x, Some y => (x ≤ y)%nat
  end.

#[local] Instance key_le_dec a b : Decision (key_le a b).
Proof. destruct a, b; simpl; apply _. Defined.

(** The rows of the model's [table] a queryset selects: those the
    filter keeps, sorted by the key of the [order_by] expression.
    Without [order_by] the database is free in the order it returns
    them; they are listed in the table's order here, and nothing is
    stated about that order. *)
Definition fetch (table : list Row) (qs : QuerySet PK Model) : list Row :=
  let selected :=
    filter (λ row, row_pk row ∈ pk__in qs) table in
  match order_by qs with
  | None => selected
  | Some e =>
      merge_sort (λ r1 r2, key_le (order_key e r1) (order_key e r2)) selected
  end.

End Materializer.

End search.

(** ** The classmethods [search] and [none], and [SearchNone] *)

(** What [Search.__init__] receives besides the model: the connection
    alias, the index and the document type. *)
Record search_request : Type := {
  connection : string;
  index : pyindex;
  doc_type : string
}.

(** Truth value of an index argument, and [index or cls.Index.name]. *)
Definition index_truthy (i : pyindex) : bool :=
  match i with
  | IndexName name => truthy name
  | IndexSeq [] => false
  | IndexSeq (_ :: _) => true
  end.

Definition index_or (i : option pyindex) (name : pyindex) : pyindex :=
  match i with
  | Some i => if index_truthy i then i else name
  | None => name
  end.

(** [SearchNone], built from its keyword arguments as a [Search] on which an
    empty response (no hits) is cached at once. *)
Definition SearchNone {PK Request Model}
    (kwargs : Request) (bound : Model) : search.Search PK Request Model :=
  {| search.request := kwargs;
     search._source := None;
     search._model := bound;
     search._response := Some [] |}.

Module documents.

Section Classmethods.

Context {Instance Value Related PK Model : Type}.

Variable settings : Settings.
Variable _default_index : pyindex → pyindex.

(** [cls.django.model]. *)
Variable django_model : Model.

(** [cls._get_using(using)] of elasticsearch_dsl, inherited by
    [DocType]: [using or cls._index._using], so that an empty alias
    also means the connection the index is bound to. *)
Definition _get_using (cls : DocType Instance Value Related)
    (alias : option string) : string :=
  str_or alias (_index_using cls).

(** [DocType.search]: the index is named for the language that is
    active when the search is built. *)
Definition search (cls : DocType Instance Value Related)
    (alias : option string) (i : option pyindex)
    : L (search.Search PK search_request Model) :=
  observe
    (λ active,
       rbind
         (get_custom_index_name settings _default_index
            (index_or i (_index_name cls)) (get_language active))
         (λ name,
            Ok {| search.request :=
                    {| connection := _get_using cls alias;
                       index := name;
                       doc_type := _doc_type_name cls |};
                  search._source := None;
                  search._model := django_model;
                  search._response := None |})).

(** [DocType.none]. *)
Definition none (cls : DocType Instance Value Related)
    (alias : option string) (i : option pyindex)
    : L (search.Search PK search_request Model) :=
  observe
    (λ active,
       rbind
         (get_custom_index_name settings _default_index
            (index_or i (_index_name cls)) (get_language active))
         (λ name,
            Ok (SearchNone
                  {| connection := _get_using cls alias;
                     index := name;
                     doc_type := _doc_type_name cls |}
                  django_model))).

End Classmethods.

End documents.

(** ** Notions the statements use *)

(** The aliases a loop with the guard [connection_alias != 'default']
    calls. *)
Definition others (aliases : list string) : list string :=
  filter (λ alias, alias ≠ "default") aliases.

(** What a second consumer finds in [actions]: a list is still whole, a
    generator is exhausted. *)
Definition leftover {PK Value} (actions : actions_arg PK Value)
    : list (Action PK Value) :=
  match actions with
  | ActionList items => items
  | ActionIter _ => []
  end.

(** Whether an exception is the one [to_field] raises, and results that
    do not carry it. *)
Definition raised_by_to_field (e : exn) : bool :=
  match e with
  | ModelFieldNotMappedError _ => true
  | _ => false
  end.

Definition not_from_to_field {A} (r : result A) : Prop :=
  match r with
  | Ok _ => True
  | Raise e => raised_by_to_field e = false
  end.

(** A step that does not raise the error, whatever language is active;
    worlds in which every live generator is made of such steps; and
    dispatches that keep such worlds and do not raise the error. *)
Definition clean_step {PK Value} (step : L (Action PK Value)) : Prop :=
  ∀ active, not_from_to_field (step active).1.

Definition clean_world {PK Value} (w : World PK Value) : Prop :=
  ∀ ref steps, generators w !! ref = Some steps → Forall clean_step steps.

Definition clean_run {PK Value A} (m : M (PK := PK) (Value := Value) A)
    : Prop :=
  ∀ w, clean_world w → not_from_to_field (m w).1 ∧ clean_world (m w).2.

(** The elements of a list, each once, in the order in which they first
    occur. *)
Fixpoint first_occurrences {A} `{EqDecision A} (l : list A) : list A :=
  match l with
  | [] => []
  | x :: l => x :: filter (λ y, y ≠ x) (first_occurrences l)
  end.

(** A document that differs from [self] in its pagination only, or in
    its [translate_field] only. *)
Definition with_pagination {Instance Value Related}
    (self : DocType Instance Value Related) (pagination : option nat)
    : DocType Instance Value Related :=
  {| _related_instance_to_ignore := _related_instance_to_ignore self;
     _fields := _fields self;
     attribute := attribute self;
     translate_field := translate_field self;
     _index_name := _index_name self;
     _index_using := _index_using self;
     _doc_type_name := _doc_type_name self;
     queryset_pagination := pagination;
     auto_refresh := auto_refresh self |}.

Definition with_translate_field {Instance Value Related}
    (self : DocType Instance Value Related)
    (translate : string → Value → bool → Lang → result Value)
    : DocType Instance Value Related :=
  {| _related_instance_to_ignore := _related_instance_to_ignore self;
     _fields := _fields self;
     attribute := attribute self;
     translate_field := translate;
     _index_name := _index_name self;
     _index_using := _index_using self;
     _doc_type_name := _doc_type_name self;
     queryset_pagination := queryset_pagination self;
     auto_refresh := auto_refresh self |}.

(** The names of the mapped fields of a document. *)
Definition mapped_names (fields : list (string * Field)) : list string :=
  (filter (λ nf, is_DEDField nf.2 = true) fields).*1.

(** ** Sample configurations

    Concrete settings, documents and clusters on which the definitions
    above are run. *)

(** [Document._default_index] of elasticsearch_dsl for a document whose
    index is named [index_name]: [index or cls._index._name]. *)
Definition dsl_default_index (index_name : pyindex) (index : pyindex)
    : pyindex :=
  match index with
  | IndexName EmptyString => index_name
  | IndexSeq [] => index_name
  | _ => index
  end.

Definition base_settings : Settings :=
  {| ELASTICSEARCH_DSL_TRANSLATION_ENABLED := None;
     LANGUAGE_ENGLISH := "en";
     LANGUAGE_ANALYSERS := ["en"; "fr"];
     ES_INDEX_PREFIX := None;
     ES_INDEX_SUFFIX := None;
     ELASTICSEARCH_DSL := ["default"; "replica"];
     ELASTICSEARCH_DSL_LOAD_PER_QUERY := None;
     ELASTICSEARCH_DSL_CHUNK_SIZE := None;
     ELASTICSEARCH_DSL_CHUNK_BYTES := None |}.

(** Translation enabled, with a prefix and a suffix: the custom naming
    path. *)
Definition translated_settings : Settings :=
  {| ELASTICSEARCH_DSL_TRANSLATION_ENABLED := Some true;
     LANGUAGE_ENGLISH := "en";
     LANGUAGE_ANALYSERS := ["en"; "fr"];
     ES_INDEX_PREFIX := Some "dev";
     ES_INDEX_SUFFIX := Some "v1";
     ELASTICSEARCH_DSL := ["replica"; "default"; "archive"];
     ELASTICSEARCH_DSL_LOAD_PER_QUERY := Some 25%Z;
     ELASTICSEARCH_DSL_CHUNK_SIZE := None;
     ELASTICSEARCH_DSL_CHUNK_BYTES := None |}.

(** An article document.  Instances are their primary keys, values are
    strings; [summary] has a related-aware hook, [slug] a plain hook,
    [title] and [body] go through the extractor, and [tags] is not a
    mapped field. *)
Definition article_hooks (name : string)
    : option (nat → hook_call unit → Lang → result string) :=
  if String.eqb name "prepare_summary_with_related" then
    Some (λ _ call active,
            Ok (match call with
                | WithRelated _ => "summary, related-aware"
                | Positional => "summary, positional"
                end))
  else if String.eqb name "prepare_summary" then
    Some (λ _ _ _, Ok "summary, plain hook")
  else if String.eqb name "prepare_slug" then
    Some (λ _ _ active, Ok ("slug in " +:+ default "no language" active))
  else None.

Definition article_extract
    (field : Field) (instance : nat) (related : option unit) (active : Lang)
    : result string :=
  Ok (hyphen_join (_path field)).

Definition article_doc (index_name : pyindex) (pagination : option nat)
    : DocType nat string unit :=
  {| _related_instance_to_ignore := None;
     _fields :=
       [ ("summary", {| is_DEDField := true; _path := [] |});
         ("slug", {| is_DEDField := true; _path := [] |});
         ("title", {| is_DEDField := true; _path := [] |});
         ("body", {| is_DEDField := true; _path := ["content"; "text"] |});
         ("tags", {| is_DEDField := false; _path := [] |}) ];
     attribute := article_hooks;
     translate_field := translate_field_default;
     _index_name := index_name;
     _index_using := "default";
     _doc_type_name := "doc";
     queryset_pagination := pagination;
     auto_refresh := false |}.

(** Clusters that accept everything: a bulk answers with the number of
    actions it received and its own alias, a save with its alias. *)
Definition accepting_bulk {PK Value}
    (client : string) (received : list (Action PK Value))
    (kwargs : gmap string kwval) : result (nat * string) :=
  Ok (length received, client).

Definition accepting_save (alias : string) (kwargs : gmap string kwval)
    : result string :=
  Ok ("saved on " +:+ alias).

Definition accepting_delete (alias : string) (kwargs : gmap string kwval)
    : result unit :=
  Ok tt.

(** Nothing dispatched yet, no generator alive, no language active. *)
Definition idle_world {PK Value} : World PK Value :=
  {| language := None; generators := ∅; calls := [] |}.

(** A search whose request carries what slicing put in [_extra], and
    [Search.to_dict] of elasticsearch_dsl on it: the extra keys unless
    this is a count, then the keyword arguments on top. *)
Definition dsl_to_dict
    (self : search.Search nat (gmap string search.json) string)
    (count : bool)
    (kwargs : gmap string search.json) : gmap string search.json :=
  kwargs ∪ (if count then ∅ else search.request self).

Definition sliced_search
    : search.Search nat (gmap string search.json) string :=
  {| search.request := {[ "from" := search.JInt 20 ]};
     search._source := None;
     search._model := "Article";
     search._response := None |}.

(** A cluster that answers every search with the documents 30, 10, 20,
    in that order of relevance, and a table in primary-key order. *)
Definition relevance_search
    (s : search.Search nat (gmap string search.json) string)
    : list (search.Hit nat) :=
  [ {| search.meta_id := 30 |};
    {| search.meta_id := 10 |};
    {| search.meta_id := 20 |} ].

Definition article_table : list (nat * string) :=
  [ (10, "ten"); (20, "twenty"); (30, "thirty"); (40, "forty") ].

(** A cluster that finds document 30 in two of the indices searched,
    and a document 99 that has no row. *)
Definition repeating_search
    (s : search.Search nat (gmap string search.json) string)
    : list (search.Hit nat) :=
  [ {| search.meta_id := 30 |};
    {| search.meta_id := 99 |};
    {| search.meta_id := 10 |};
    {| search.meta_id := 30 |} ].

(** A world in which one generator is alive: the actions of articles 1
    and 2 of a document whose index is given as a list of names. *)
Definition pending_actions : list (L (Action nat string)) :=
  _get_actions translated_settings
    (dsl_default_index (IndexSeq ["articles"])) id article_extract
    (article_doc (IndexSeq ["articles"]) None) [1; 2] "index" true.

Definition pending_world : World nat string :=
  {| language := None;
     generators := {[ 0 := pending_actions ]};
     calls := [] |}.

(** The alias of a call and how many actions it carried. *)
Definition call_summary {PK Value} (c : Call PK Value) : string * nat :=
  match c with
  | BulkCall client received => (client, length received)
  | SaveCall alias => (alias, 0)
  | DeleteCall alias => (alias, 0)
  end.

(** A document whose every hook fails. *)
Definition failing_doc (index_name : pyindex) : DocType nat string unit :=
  {| _related_instance_to_ignore := None;
     _fields := [ ("title", {| is_DEDField := true; _path := [] |}) ];
     attribute := λ _, Some (λ _ _ _, Raise (ExternalError "hook failed"));
     translate_field := translate_field_default;
     _index_name := index_name;
     _index_using := "default";
     _doc_type_name := "doc";
     queryset_pagination := None;
     auto_refresh := false |}.

(** A document whose [slug] hook fails, after [summary] and before
    [title]. *)
Definition broken_slug_doc : DocType nat string unit :=
  {| _related_instance_to_ignore := None;
     _fields := _fields (article_doc (IndexSeq ["articles"]) None);
     attribute :=
       λ name, if String.eqb name "prepare_slug"
               then Some (λ _ _ _, Raise (ExternalError "no slug"))
               else article_hooks name;
     translate_field := translate_field_default;
     _index_name := IndexSeq ["articles"];
     _index_using := "default";
     _doc_type_name := "doc";
     queryset_pagination := None;
     auto_refresh := false |}.

(** Clusters of which one refuses every request. *)
Definition refusing_bulk {PK Value} (refuses : string)
    (client : string) (received : list (Action PK Value))
    (kwargs : gmap string kwval) : result (nat * string) :=
  if String.eqb client refuses
  then Raise (ExternalError "connection refused")
  else Ok (length received, client).

Definition refusing_save (refuses : string)
    (alias : string) (kwargs : gmap string kwval) : result string :=
  if String.eqb alias refuses
  then Raise (ExternalError "connection refused")
  else Ok ("saved on " +:+ alias).

Definition refusing_delete (refuses : string)
    (alias : string) (kwargs : gmap string kwval) : result unit :=
  if String.eqb alias refuses
  then Raise (ExternalError "connection refused")
  else Ok tt.

(** A world whose generator yields the four pending actions and then
    raises. *)
Definition interrupted_world : World nat string :=
  {| language := None;
     generators :=
       {[ 0 := pending_actions
               ++ [raising_step (ExternalError "row vanished")] ]};
     calls := [] |}.

(** * Properties *)

(** ** Index naming *)

Section IndexNamingFacts.

Variable settings : Settings.
Variable _default_index : pyindex → pyindex.

Lemma append_loop_is_map {A B} (f : A → B) (xs : list A) (acc : list B) :
  fold_left (λ acc x, acc ++ [f x]) xs acc = acc ++ map f xs.
Proof.
  revert acc; induction xs as [|x xs IH]; intros acc; simpl.
  - by rewrite app_nil_r.
  - rewrite IH. by rewrite <- app_assoc.
Qed.

Lemma string_app_nil_r (s : string) : s +:+ "" = s.
Proof.
  induction s as [|c s IH]; [done|].
  change (String c (s +:+ "") = String c s). by f_equal.
Qed.

Lemma string_app_assoc (a b c : string) :
  (a +:+ b) +:+ c = a +:+ (b +:+ c).
Proof.
  induction a as [|x a IH]; [done|].
  change (String x ((a +:+ b) +:+ c) = String x (a +:+ (b +:+ c))).
  by f_equal.
Qed.

(** The format expression of the source produces the name the
    specification describes: present segments, single hyphens. *)
Lemma custom_index_format_spec prefix base language translation suffix :
  custom_index_format prefix base language translation suffix
  = spec_index_name prefix base language translation suffix.
Proof.
  unfold custom_index_format, spec_index_name, spec_segments.
  destruct (truthy prefix), translation, (truthy suffix); cbn;
    rewrite ?string_app_assoc, ?string_app_nil_r; reflexivity.
Qed.

(** On a list or tuple of names, the call succeeds: one formatted name
    per element, in order, returned as they are on the custom path and
    through [_default_index] otherwise. *)
Lemma get_custom_index_name_seq names language :
  let enabled :=
    getattr (ELASTICSEARCH_DSL_TRANSLATION_ENABLED settings) false in
  let prefix := getattr (ES_INDEX_PREFIX settings) "" in
  let suffix := getattr (ES_INDEX_SUFFIX settings) "" in
  let computed :=
    map (λ base,
           spec_index_name prefix base
             (str_or language (LANGUAGE_ENGLISH settings)) enabled suffix)
      names in
  length computed = length names ∧
  get_custom_index_name settings _default_index (IndexSeq names) language
  = Ok (if enabled && truthy prefix && truthy suffix
        then IndexSeq computed
        else _default_index (IndexSeq computed)).
Proof.
  intros enabled prefix suffix computed. split.
  - unfold computed. by rewrite length_map.
  - unfold get_custom_index_name. simpl.
    rewrite append_loop_is_map. simpl.
    fold enabled prefix suffix.
    replace (map _ names) with computed.
    + by destruct (enabled && truthy prefix && truthy suffix).
    + unfold computed. apply map_ext. intros base.
      symmetry. apply custom_index_format_spec.
Qed.

(** C3. Asked for a single name (an [index] that is neither a list nor a
    tuple), [get_custom_index_name] returns no name at all: the format
    call of that branch reads the loop variable [i] of the other
    branch, which is unbound, and the call raises [UnboundLocalError]
    whatever the settings, the name and the language. *)
Theorem get_custom_index_name_single_name_raises name language :
  get_custom_index_name settings _default_index (IndexName name) language
  = Raise (UnboundLocalError "i").
Proof. reflexivity. Qed.

End IndexNamingFacts.

(** C5. For every base name, prefix, suffix, language and translation
    flag, the name computed for the base name is prefix, base, language
    (with translation) and suffix, the present ones joined by single
    hyphens, and it is returned raw exactly when translation is
    enabled and prefix and suffix are non-empty, through
    [_default_index] otherwise: but only when the base name is passed
    in a list.  Passed on its own, the single-name branch raises
    [UnboundLocalError] and neither the raw name nor the default index
    object is returned. *)
Theorem custom_name_only_on_list_path
    (settings : Settings) (_default_index : pyindex → pyindex)
    (base : string) (language : option string) :
  let enabled :=
    getattr (ELASTICSEARCH_DSL_TRANSLATION_ENABLED settings) false in
  let prefix := getattr (ES_INDEX_PREFIX settings) "" in
  let suffix := getattr (ES_INDEX_SUFFIX settings) "" in
  let computed :=
    spec_index_name prefix base
      (str_or language (LANGUAGE_ENGLISH settings)) enabled suffix in
  get_custom_index_name settings _default_index (IndexSeq [base]) language
  = Ok (if enabled && truthy prefix && truthy suffix
        then IndexSeq [computed]
        else _default_index (IndexSeq [computed]))
  ∧ get_custom_index_name settings _default_index (IndexName base) language
    = Raise (UnboundLocalError "i").
Proof.
  cbv zeta. split; [|reflexivity].
  by destruct (get_custom_index_name_seq settings _default_index [base]
                 language) as [_ ->].
Qed.

(** On the sample settings: the list path gives [dev-articles-fr-v1],
    the single name gives nothing. *)
Example custom_name_on_sample_settings :
  spec_index_name "dev" "articles" "fr" true "v1" = "dev-articles-fr-v1"
  ∧ get_custom_index_name translated_settings
      (dsl_default_index (IndexName "articles"))
      (IndexSeq ["articles"]) (Some "fr")
    = Ok (IndexSeq ["dev-articles-fr-v1"])
  ∧ get_custom_index_name translated_settings
      (dsl_default_index (IndexName "articles"))
      (IndexName "articles") (Some "fr")
    = Raise (UnboundLocalError "i")
  ∧ get_custom_index_name base_settings
      (dsl_default_index (IndexName "articles"))
      (IndexName "articles") None
    = Raise (UnboundLocalError "i").
Proof. repeat split. Qed.

(** ** The language scope and field preparation *)

Section PreparationFacts.

Context {Instance Value Related PK : Type}.

Variable settings : Settings.
Variable _default_index : pyindex → pyindex.
Variable pk : Instance → PK.
Variable get_value_from_instance :
  Field → Instance → option Related → Lang → result Value.

Local Abbreviation Doc := (DocType Instance Value Related).

(** Whatever the body does to the translation context and however it
    ends, [override] leaves the context as it found it. *)
Lemma override_restores {A} (language : option string) (body : L A)
    (active : Lang) :
  (override language body active).2 = active.
Proof.
  unfold override, get_language, activate, deactivate_all.
  destruct (body _) as [outcome after]. by destruct active.
Qed.

(** The body runs with the requested language active. *)
Lemma override_enters {A} (language : option string)
    (f : Lang → result A) (active : Lang) :
  (override language (observe f) active).1 = f language.
Proof.
  unfold override, observe, activate, deactivate_all.
  by destruct language.
Qed.

(** One run of [_prepare_action]: the action dict evaluated under the
    requested language, and the context the caller had. *)
Lemma prepare_action_run
    (self : Doc) (object_instance : Instance) (action : string)
    (language : option string) (fail_silently : bool) (active : Lang) :
  _prepare_action settings _default_index pk get_value_from_instance
    self object_instance action language fail_silently active
  = (action_dict settings _default_index pk get_value_from_instance
       self object_instance action language fail_silently language,
     active).
Proof.
  unfold _prepare_action.
  rewrite (surjective_pairing (override _ _ _)).
  by rewrite override_enters, override_restores.
Qed.

(** C9. [_prepare_action] evaluates the action (index name and document
    preparation) with the requested language as the active one, and
    leaves the translation context as it was before the call, on a
    normal return and when preparation raises. *)
Theorem prepare_action_scopes_language
    (self : Doc) (object_instance : Instance) (action : string)
    (language : option string) (fail_silently : bool) (active : Lang) :
  let run :=
    _prepare_action settings _default_index pk get_value_from_instance
      self object_instance action language fail_silently active in
  run.1 = action_dict settings _default_index pk get_value_from_instance
            self object_instance action language fail_silently language
  ∧ run.2 = active
  ∧ ∀ e, run.1 = Raise e → get_language run.2 = get_language active.
Proof.
  cbv zeta. rewrite prepare_action_run. simpl. by repeat split.
Qed.

(** The loop of [prepare] stores, for every mapped field, the value
    [prepare_field] computes for it, and touches no other key. *)
Lemma prepare_loop_stores
    (self : Doc) (instance : Instance) (fail_silently : bool)
    (active : Lang) (fields : list (string * Field))
    (data0 : gmap string Value) :
  NoDup fields.*1 →
  Forall (λ nf, is_DEDField nf.2 = true →
                is_ok (prepare_field settings get_value_from_instance self
                         instance fail_silently nf.1 nf.2 active) = true)
    fields →
  ∃ data,
    prepare_loop settings get_value_from_instance self instance
      fail_silently fields data0 active = Ok data
    ∧ (∀ name field, (name, field) ∈ fields → is_DEDField field = true →
       ∃ value,
         prepare_field settings get_value_from_instance self instance
           fail_silently name field active = Ok value
         ∧ data !! name = Some value)
    ∧ (∀ name, name ∉ fields.*1 → data !! name = data0 !! name).
Proof.
  revert data0. induction fields as [|[name field] fields IH];
    intros data0 Hnodup Hok.
  - exists data0. split; [done|]. split; [|done].
    intros ?? Hin. by apply elem_of_nil in Hin.
  - apply NoDup_cons in Hnodup as [Hfresh Hnodup].
    apply Forall_cons in Hok as [Hhead Hok]. simpl in *.
    destruct (is_DEDField field) eqn:Hded; simpl.
    + destruct (prepare_field _ _ _ _ _ name field active)
        as [value|e] eqn:Hvalue; [|by specialize (Hhead eq_refl)].
      simpl.
      destruct (IH (<[name := value]> data0) Hnodup Hok)
        as (data & Hrun & Hfields & Hframe).
      exists data. split; [done|]. split.
      * intros name' field' Hin Hded'.
        apply elem_of_cons in Hin as [Heq|Hin].
        -- inversion Heq; subst. exists value. split; [done|].
           rewrite (Hframe name Hfresh). apply lookup_insert_eq.
        -- by apply Hfields.
      * intros name' Hnot. apply not_elem_of_cons in Hnot as [Hne Hnot].
        rewrite (Hframe name' Hnot). by apply lookup_insert_ne.
    + destruct (IH data0 Hnodup Hok) as (data & Hrun & Hfields & Hframe).
      exists data. split; [done|]. split.
      * intros name' field' Hin Hded'.
        apply elem_of_cons in Hin as [Heq|Hin].
        -- inversion Heq; subst. congruence.
        -- by apply Hfields.
      * intros name' Hnot. apply not_elem_of_cons in Hnot as [Hne Hnot].
        by apply Hframe.
Qed.

(** C6. For every declared mapped field, [prepare] stores under the
    field's name the value resolved by priority: the
    [prepare_<name>_with_related] hook, called with the instance and
    the related instances to ignore, if the document defines it;
    otherwise the [prepare_<name>] hook, called with the instance, if
    defined; otherwise the generic extractor over the field's path (the
    field's own name when no path is declared).  With translation
    enabled the resolved value goes through [translate_field] with the
    field name and [fail_silently]; the base class's [translate_field]
    returns the value unchanged. *)
Theorem prepare_resolves_by_priority
    (self : Doc) (instance : Instance) (fail_silently : bool)
    (active : Lang) :
  NoDup (_fields self).*1 →
  Forall (λ nf, is_DEDField nf.2 = true →
                is_ok (prepare_field settings get_value_from_instance self
                         instance fail_silently nf.1 nf.2 active) = true)
    (_fields self) →
  (∃ data,
     prepare settings get_value_from_instance self instance fail_silently
       active = Ok data
     ∧ ∀ name field,
         (name, field) ∈ _fields self → is_DEDField field = true →
         ∃ resolved value,
           data !! name = Some value
           ∧ match attribute self ("prepare_" +:+ name +:+ "_with_related")
             with
             | Some hook =>
                 hook instance
                   (WithRelated (_related_instance_to_ignore self)) active
                 = Ok resolved
             | None =>
                 match attribute self ("prepare_" +:+ name) with
                 | Some hook => hook instance Positional active = Ok resolved
                 | None =>
                     get_value_from_instance
                       (if decide (_path field = [])
                        then with_path field [name] else field)
                       instance (_related_instance_to_ignore self) active
                     = Ok resolved
                 end
             end
           ∧ (if getattr (ELASTICSEARCH_DSL_TRANSLATION_ENABLED settings)
                   false
              then translate_field self name resolved fail_silently active
                   = Ok value
              else value = resolved))
  ∧ (∀ name (value : Value) silently lang,
       translate_field_default name value silently lang = Ok value).
Proof.
  intros Hnodup Hok. split; [|done].
  destruct (prepare_loop_stores self instance fail_silently active
              (_fields self) ∅ Hnodup Hok) as (data & Hrun & Hfields & _).
  exists data. split; [exact Hrun|].
  intros name field Hin Hded.
  destruct (Hfields name field Hin Hded) as (value & Hvalue & Hlookup).
  unfold prepare_field in Hvalue.
  destruct (attribute self ("prepare_" +:+ name +:+ "_with_related"))
    as [related_hook|].
  - destruct (related_hook _ _ _) as [resolved|e]; [|done].
    exists resolved, value. repeat split; [done|].
    simpl in Hvalue. destruct (getattr _ false); congruence.
  - destruct (attribute self ("prepare_" +:+ name)) as [hook|].
    + destruct (hook _ _ _) as [resolved|e]; [|done].
      exists resolved, value. repeat split; [done|].
      simpl in Hvalue. destruct (getattr _ false); congruence.
    + destruct (get_value_from_instance _ _ _ _) as [resolved|e]; [|done].
      exists resolved, value. repeat split; [done|].
      simpl in Hvalue. destruct (getattr _ false); congruence.
Qed.

End PreparationFacts.

(** ** Pagination and action generation *)

Section PaginationFacts.

Context {A : Type}.

(** A page is the next [per_page] objects after the pages before it. *)
Lemma page_object_list_take (object_list : list A) (per_page number : nat) :
  page_object_list object_list per_page number
  = take per_page (drop ((number - 1) * per_page) object_list).
Proof.
  unfold page_object_list.
  set (bottom := (number - 1) * per_page).
  destruct (decide (bottom + per_page ≤ length object_list)) as [Hle|Hgt].
  - rewrite Nat.min_l by done. f_equal. lia.
  - rewrite Nat.min_r by lia.
    rewrite !take_ge; [done | rewrite length_drop; lia..].
Qed.

(** Pages [first+1 .. first+pages], one after the other, are the objects
    from position [first * per_page] on, when the pages reach the end. *)
Lemma pages_in_order (object_list : list A) (per_page pages first : nat) :
  length object_list ≤ (first + pages) * per_page →
  flat_map (page_object_list object_list per_page) (seq (S first) pages)
  = drop (first * per_page) object_list.
Proof.
  revert first. induction pages as [|pages IH]; intros first Hreach; simpl.
  - symmetry. apply drop_ge. lia.
  - rewrite IH by lia. rewrite page_object_list_take.
    replace (S first - 1) with first by lia.
    replace (S first * per_page) with (first * per_page + per_page) by lia.
    rewrite <- drop_drop. apply take_drop.
Qed.

Lemma num_pages_reach (count per_page : nat) :
  0 < per_page →
  ∃ pages, num_pages count per_page = Ok pages ∧ count ≤ pages * per_page.
Proof.
  intros Hpos. destruct per_page as [|p]; [lia|].
  eexists. split; [reflexivity|].
  set (total := Nat.max 1 count + S p - 1).
  pose proof (Nat.div_mod_eq total (S p)) as Hdiv.
  pose proof (Nat.mod_upper_bound total (S p)) as Hmod.
  unfold total in *. nia.
Qed.

(** Splitting into pages loses nothing and keeps the order. *)
Lemma pages_concat (object_list : list A) (per_page : nat) :
  0 < per_page →
  ∃ pages,
    page_range (length object_list) per_page = Ok pages
    ∧ flat_map (page_object_list object_list per_page) pages = object_list.
Proof.
  intros Hpos.
  destruct (num_pages_reach (length object_list) per_page Hpos)
    as (n & Hn & Hreach).
  exists (seq 1 n). unfold page_range. rewrite Hn. split; [done|].
  by rewrite (pages_in_order object_list per_page n 0).
Qed.

Lemma flat_map_flat_map {B C} (f : A → list B) (g : B → list C)
    (xs : list A) :
  flat_map (λ x, flat_map g (f x)) xs = flat_map g (flat_map f xs).
Proof.
  induction xs as [|x xs IH]; simpl; [done|].
  by rewrite flat_map_app, IH.
Qed.

Lemma flat_map_singleton {B} (f : A → B) (xs : list A) :
  flat_map (λ x, [f x]) xs = map f xs.
Proof. induction xs as [|x xs IH]; simpl; [done | by rewrite IH]. Qed.

Lemma length_flat_map_const {B} (f : A → list B) (xs : list A) (n : nat) :
  (∀ x, length (f x) = n) → length (flat_map f xs) = length xs * n.
Proof.
  intros Hn. induction xs as [|x xs IH]; simpl; [done|].
  rewrite length_app, Hn, IH. lia.
Qed.

End PaginationFacts.

Section ActionGenerationFacts.

Context {Instance Value Related PK : Type}.

Variable settings : Settings.
Variable _default_index : pyindex → pyindex.
Variable pk : Instance → PK.
Variable get_value_from_instance :
  Field → Instance → option Related → Lang → result Value.

Local Abbreviation Doc := (DocType Instance Value Related).
Local Abbreviation prepare_action :=
  (_prepare_action settings _default_index pk get_value_from_instance).
Local Abbreviation get_actions :=
  (_get_actions settings _default_index pk get_value_from_instance).

(** With a positive page size the paginated loops visit the objects
    exactly as the plain loop does. *)
Lemma paginated_flat_map
    (object_list : list Instance) (per_page : nat)
    (body : Instance → Generator (PK := PK) (Value := Value)) :
  0 < per_page →
  paginated object_list per_page body = flat_map body object_list.
Proof.
  intros Hpos. unfold paginated.
  destruct (pages_concat object_list per_page Hpos) as (pages & -> & Hcat).
  by rewrite flat_map_flat_map, Hcat.
Qed.

(** The steps of the generator [_get_actions] returns: one per object,
    or one per object and language analyser, in the order of the
    objects. *)
Lemma get_actions_steps
    (self : Doc) (object_list : list Instance) (action : string)
    (fail_silently : bool) :
  (∀ per_page, queryset_pagination self = Some per_page → 0 < per_page) →
  get_actions self object_list action fail_silently
  = if getattr (ELASTICSEARCH_DSL_TRANSLATION_ENABLED settings) false
    then flat_map
           (λ object_instance,
              map (λ language,
                     prepare_action self object_instance action
                       (Some language) fail_silently)
                (LANGUAGE_ANALYSERS settings))
           object_list
    else map (λ object_instance,
                prepare_action self object_instance action None true)
           object_list.
Proof.
  intros Hpos. unfold _get_actions.
  destruct (getattr _ false);
    destruct (queryset_pagination self) as [per_page|] eqn:Hpage; try done.
  - apply paginated_flat_map. by apply Hpos.
  - rewrite paginated_flat_map by by apply Hpos.
    apply flat_map_singleton.
Qed.

(** Its number of steps. *)
Lemma get_actions_length
    (self : Doc) (object_list : list Instance) (action : string)
    (fail_silently : bool) :
  (∀ per_page, queryset_pagination self = Some per_page → 0 < per_page) →
  length (get_actions self object_list action fail_silently)
  = if getattr (ELASTICSEARCH_DSL_TRANSLATION_ENABLED settings) false
    then length object_list * length (LANGUAGE_ANALYSERS settings)
    else length object_list.
Proof.
  intros Hpos. rewrite get_actions_steps by done.
  destruct (getattr _ false).
  - apply length_flat_map_const. intros x. apply length_map.
  - apply length_map.
Qed.

(** Steps that all yield are drained into their actions, in order. *)
Lemma drain_yields
    (steps : Generator (PK := PK) (Value := Value))
    (yielded : list (Action PK Value)) (active : Lang) :
  Forall2 (λ step a, ∀ active, step active = (Ok a, active)) steps yielded →
  drain steps active = (yielded, None, active).
Proof.
  intros Hall. revert active.
  induction Hall as [|step a steps yielded Hstep _ IH]; intros active.
  - done.
  - simpl. rewrite Hstep, IH. done.
Qed.

(** Where every action can be prepared, the generator yields exactly
    one action per step. *)
Lemma get_actions_yield_all
    (self : Doc) (object_list : list Instance) (action : string)
    (fail_silently : bool) (active : Lang) :
  (∀ per_page, queryset_pagination self = Some per_page → 0 < per_page) →
  (∀ object_instance language silently,
     is_ok (action_dict settings _default_index pk get_value_from_instance
              self object_instance action language silently language)
     = true) →
  ∃ yielded,
    drain (get_actions self object_list action fail_silently) active
    = (yielded, None, active)
    ∧ length yielded
      = if getattr (ELASTICSEARCH_DSL_TRANSLATION_ENABLED settings) false
        then length object_list * length (LANGUAGE_ANALYSERS settings)
        else length object_list.
Proof.
  intros Hpos Hok.
  rewrite <- (get_actions_length self object_list action fail_silently Hpos).
  generalize (get_actions_steps self object_list action fail_silently Hpos).
  intros Hsteps.
  assert (Forall (λ step, ∃ a, ∀ active, step active = (Ok a, active))
            (get_actions self object_list action fail_silently)) as Hall.
  { rewrite Hsteps. destruct (getattr _ false).
    - apply Forall_forall. intros step Hin.
      apply list_elem_of_In, in_flat_map in Hin as (o & _ & Hin).
      apply in_map_iff in Hin as (l & <- & _).
      specialize (Hok o (Some l) fail_silently).
      destruct (action_dict _ _ _ _ _ o action (Some l) fail_silently _)
        as [a|] eqn:Ha; [|done].
      exists a. intros act. by rewrite prepare_action_run, Ha.
    - apply Forall_forall. intros step Hin.
      apply list_elem_of_In, in_map_iff in Hin as (o & <- & _).
      specialize (Hok o None true).
      destruct (action_dict _ _ _ _ _ o action None true _)
        as [a|] eqn:Ha; [|done].
      exists a. intros act. by rewrite prepare_action_run, Ha. }
  clear Hsteps.
  induction Hall as [|step steps [a Ha] _ IH].
  - by exists [].
  - destruct IH as (yielded & Hrun & Hlen).
    exists (a :: yielded). simpl. rewrite Ha, Hrun. simpl. by rewrite Hlen.
Qed.

(** A document whose index has a single name (a string): the first
    action cannot be prepared, so the generator yields nothing and ends
    with [UnboundLocalError]. *)
Lemma get_actions_single_name_raises
    (self : Doc) (name : string) (object_list : list Instance)
    (action : string) (fail_silently : bool) (active : Lang) :
  _index_name self = IndexName name →
  (∀ per_page, queryset_pagination self = Some per_page → 0 < per_page) →
  object_list ≠ [] →
  LANGUAGE_ANALYSERS settings ≠ [] →
  drain (get_actions self object_list action fail_silently) active
  = ([], Some (UnboundLocalError "i"), active).
Proof.
  intros Hname Hpos Hobjects Hlanguages.
  rewrite get_actions_steps by done.
  destruct object_list as [|o objects]; [done|].
  destruct (LANGUAGE_ANALYSERS settings) as [|l languages]; [done|].
  destruct (getattr _ false); cbn [flat_map map app drain];
    rewrite prepare_action_run; unfold action_dict; by rewrite Hname.
Qed.

End ActionGenerationFacts.

(** C2. The scenario of the specification: 1200 instances, page size
    500, two language analysers, translation enabled.  The paginator
    makes the pages 1, 2, 3 of sizes 500, 500 and 200 and the generator
    has 2400 steps, one per object and language in enumeration order;
    but the document's index has a single name, the first action
    cannot be prepared, and the generator yields no action instead of
    2400.  With translation disabled it yields none instead of 1200. *)
Theorem get_actions_scenario_yields_nothing :
  let object_list := seq 1 1200 in
  let doc := article_doc (IndexName "articles") (Some 500) in
  let _default_index := dsl_default_index (IndexName "articles") in
  page_range (length object_list) 500 = Ok [1; 2; 3]
  ∧ map (λ page, length (page_object_list object_list 500 page)) [1; 2; 3]
    = [500; 500; 200]
  ∧ length (_get_actions translated_settings _default_index id
              article_extract doc object_list "index" true) = 2400
  ∧ drain (_get_actions translated_settings _default_index id
             article_extract doc object_list "index" true) None
    = ([], Some (UnboundLocalError "i"), None)
  ∧ drain (_get_actions base_settings _default_index id
             article_extract doc object_list "index" true) None
    = ([], Some (UnboundLocalError "i"), None).
Proof. vm_compute. repeat split. Qed.

(** ** Multi-cluster dispatch *)

Section DispatchFacts.

Context {Instance Value Related PK BulkResult SaveResult : Type}.

Variable settings : Settings.
Variable cluster_bulk :
  string → list (Action PK Value) → gmap string kwval → result BulkResult.
Variable cluster_save : string → gmap string kwval → result SaveResult.
Variable cluster_delete : string → gmap string kwval → result unit.

Local Abbreviation Doc := (DocType Instance Value Related).
Local Abbreviation W := (World PK Value).

Lemma bind_ok {A B} (m : M (PK := PK) (Value := Value) A)
    (k : A → M B) (w w' : W) (a : A) :
  m w = (Ok a, w') → bind m k w = k a w'.
Proof. intros Hm. unfold bind. by rewrite Hm. Qed.

Lemma get_connection_alias (self : Doc) (alias : string) :
  _get_connection self (Some alias) = alias.
Proof. done. Qed.

Lemma get_connection_own (self : Doc) :
  _get_connection self None = _index_using self.
Proof. done. Qed.

Lemma set_calls_set_calls (w : W) cs1 cs2 :
  set_calls (set_calls w cs1) cs2 = set_calls w cs2.
Proof. done. Qed.

(** Once consumed, [actions] gives every later consumer its leftover
    and does not change any more. *)
Lemma consume_again (actions : actions_arg PK Value) (w w1 : W) items raised
    cs :
  consume actions w = (items, raised, w1) →
  consume actions (set_calls w1 cs) = (leftover actions, None, set_calls w1 cs).
Proof.
  destruct actions as [l|ref]; simpl.
  - intros [= <- <- <-]. done.
  - destruct (drain _ _) as [[items' raised'] active'].
    intros [= <- <- <-]. simpl.
    rewrite lookup_insert_eq. simpl. unfold set_calls. simpl.
    by rewrite insert_insert_eq.
Qed.

Lemma helpers_bulk_run client (actions : actions_arg PK Value) kwargs
    (w w1 : W) items :
  consume actions w = (items, None, w1) →
  helpers_bulk cluster_bulk client actions kwargs w
  = (cluster_bulk client items kwargs,
     set_calls w1 (calls w1 ++ [BulkCall client items])).
Proof. intros Hconsume. unfold helpers_bulk. by rewrite Hconsume. Qed.

Lemma consume_calls (actions : actions_arg PK Value) (w w1 : W) items raised :
  consume actions w = (items, raised, w1) → calls w1 = calls w.
Proof.
  destruct actions as [l|ref]; simpl.
  - by intros [= <- <- <-].
  - destruct (drain _ _) as [[items' raised'] active'].
    by intros [= <- <- <-].
Qed.

(** The guarded loop is the plain loop over the other aliases. *)
Lemma for_each_guarded (body : string → M (PK := PK) (Value := Value) unit)
    (aliases : list string) (w : W) :
  for_each aliases
    (λ connection_alias,
       if negb (String.eqb connection_alias "default")
       then body connection_alias else ret tt) w
  = for_each (others aliases) body w.
Proof.
  revert w. induction aliases as [|alias aliases IH]; intros w; [done|].
  unfold others. rewrite filter_cons. fold (others aliases). simpl.
  destruct (String.eqb_spec alias "default") as [->|Hne]; simpl.
  - apply IH.
  - rewrite decide_True by done. simpl. unfold bind.
    destruct (body alias w) as [[[]|e] w']; [apply IH | done].
Qed.

(** After the first consumption, a loop of bulk calls hands every
    cluster the leftover. *)
Lemma bulk_loop_after (self : Doc) (actions : actions_arg PK Value) kwargs
    (w0 w1 : W) items raised (aliases : list string) cs :
  consume actions w0 = (items, raised, w1) →
  (∀ client received, is_ok (cluster_bulk client received kwargs) = true) →
  for_each aliases
    (λ alias,
       bind (helpers_bulk cluster_bulk (_get_connection self (Some alias))
               actions kwargs) (λ _, ret tt))
    (set_calls w1 cs)
  = (Ok tt,
     set_calls w1
       (cs ++ map (λ alias, BulkCall alias (leftover actions)) aliases)).
Proof.
  intros Hconsume Hok. revert cs.
  induction aliases as [|alias aliases IH]; intros cs.
  - simpl. by rewrite app_nil_r.
  - cbn [for_each map].
    specialize (Hok alias (leftover actions)) as Haccept.
    destruct (cluster_bulk alias (leftover actions) kwargs)
      as [answer|] eqn:Hanswer; [|done].
    erewrite bind_ok; cycle 1.
    { erewrite bind_ok; [reflexivity|].
      rewrite get_connection_alias.
      rewrite (helpers_bulk_run _ _ _ _ _ _
                 (consume_again _ _ _ _ _ cs Hconsume)).
      by rewrite Hanswer. }
    cbn [calls set_calls]. rewrite set_calls_set_calls, IH.
    by rewrite <- app_assoc.
Qed.

(** The calls [bulk] makes and what it returns, when consuming
    [actions] raises nothing and every cluster accepts its request: the
    first cluster called receives what [actions] produces, every later
    one the leftover. *)
Lemma bulk_run (self : Doc) (actions : actions_arg PK Value) kwargs
    (w w1 : W) items :
  consume actions w = (items, None, w1) →
  (∀ client received, is_ok (cluster_bulk client received kwargs) = true) →
  bulk settings cluster_bulk self actions kwargs w
  = match others (ELASTICSEARCH_DSL settings) with
    | [] =>
        (cluster_bulk (_index_using self) items kwargs,
         set_calls w1 (calls w ++ [BulkCall (_index_using self) items]))
    | first :: rest =>
        (cluster_bulk (_index_using self) (leftover actions) kwargs,
         set_calls w1
           (calls w ++ BulkCall first items ::
              map (λ alias, BulkCall alias (leftover actions))
                (rest ++ [_index_using self])))
    end.
Proof.
  intros Hconsume Hok. unfold bulk.
  pose proof (consume_calls _ _ _ _ _ Hconsume) as Hcalls.
  rewrite get_connection_own.
  destruct (others (ELASTICSEARCH_DSL settings)) as [|first rest] eqn:Hothers.
  - erewrite bind_ok; cycle 1.
    { rewrite (for_each_guarded
                 (λ alias,
                    bind (helpers_bulk cluster_bulk
                            (_get_connection self (Some alias)) actions
                            kwargs)
                      (λ _, ret tt))).
      by rewrite Hothers. }
    rewrite (helpers_bulk_run _ _ _ _ _ _ Hconsume). by rewrite Hcalls.
  - pose proof (Hok first items) as Hfirst.
    destruct (cluster_bulk first items kwargs) as [answer|] eqn:Hanswer;
      [|done].
    erewrite bind_ok; cycle 1.
    { rewrite (for_each_guarded
                 (λ alias,
                    bind (helpers_bulk cluster_bulk
                            (_get_connection self (Some alias)) actions
                            kwargs)
                      (λ _, ret tt))).
      rewrite Hothers. cbn [for_each].
      erewrite bind_ok; cycle 1.
      { erewrite bind_ok; [reflexivity|].
        rewrite get_connection_alias.
        rewrite (helpers_bulk_run _ _ _ _ _ _ Hconsume).
        by rewrite Hanswer. }
      rewrite (bulk_loop_after self actions kwargs w w1 items None rest _
                 Hconsume Hok).
      reflexivity. }
    rewrite (helpers_bulk_run _ _ _ _ _ _
               (consume_again _ _ _ _ _ _ Hconsume)).
    cbn [calls set_calls]. rewrite set_calls_set_calls.
    rewrite Hcalls, map_app. cbn [map].
    by rewrite <- !app_assoc.
Qed.

Lemma super_save_run (self : Doc) alias kwargs (w : W) :
  super_save cluster_save self alias kwargs w
  = (cluster_save (_get_connection self alias) kwargs,
     set_calls w (calls w ++ [SaveCall (_get_connection self alias)])).
Proof. done. Qed.

Lemma super_delete_run (self : Doc) alias kwargs (w : W) :
  super_delete cluster_delete self alias kwargs w
  = (cluster_delete (_get_connection self alias) kwargs,
     set_calls w (calls w ++ [DeleteCall (_get_connection self alias)])).
Proof. done. Qed.

Lemma save_loop (self : Doc) kwargs (w : W) (aliases : list string) :
  (∀ alias, is_ok (cluster_save alias kwargs) = true) →
  for_each aliases
    (λ alias, bind (super_save cluster_save self (Some alias) kwargs)
                (λ _, ret tt)) w
  = (Ok tt, set_calls w (calls w ++ map SaveCall aliases)).
Proof.
  intros Hok. revert w.
  induction aliases as [|alias aliases IH]; intros w.
  - simpl. rewrite app_nil_r. by destruct w.
  - cbn [for_each map].
    specialize (Hok alias) as Haccept.
    destruct (cluster_save alias kwargs) as [answer|] eqn:Hanswer; [|done].
    erewrite bind_ok; cycle 1.
    { erewrite bind_ok; [reflexivity|].
      rewrite super_save_run, get_connection_alias. by rewrite Hanswer. }
    rewrite IH. cbn [calls set_calls]. rewrite set_calls_set_calls.
    by rewrite <- app_assoc.
Qed.

(** The calls [save] makes and what it returns when every cluster
    accepts. *)
Lemma save_run (self : Doc) kwargs (w : W) :
  (∀ alias, is_ok (cluster_save alias kwargs) = true) →
  save settings cluster_save self kwargs w
  = (cluster_save (_index_using self) kwargs,
     set_calls w
       (calls w ++
        map SaveCall (others (ELASTICSEARCH_DSL settings)
                      ++ [_index_using self]))).
Proof.
  intros Hok. unfold save.
  erewrite bind_ok; cycle 1.
  { rewrite (for_each_guarded
               (λ alias,
                  bind (super_save cluster_save self (Some alias) kwargs)
                    (λ _, ret tt))).
    by apply save_loop. }
  rewrite super_save_run, get_connection_own.
  cbn [calls set_calls]. rewrite set_calls_set_calls, map_app.
  by rewrite <- app_assoc.
Qed.

(** The calls [delete] makes when every cluster accepts: one per
    configured alias, in the order of the configuration. *)
Lemma delete_run (self : Doc) kwargs (w : W) :
  (∀ alias, is_ok (cluster_delete alias kwargs) = true) →
  delete settings cluster_delete self kwargs w
  = (Ok tt,
     set_calls w (calls w ++ map DeleteCall (ELASTICSEARCH_DSL settings))).
Proof.
  intros Hok. unfold delete.
  generalize (ELASTICSEARCH_DSL settings) as aliases. intros aliases.
  revert w. induction aliases as [|alias aliases IH]; intros w.
  - simpl. rewrite app_nil_r. by destruct w.
  - cbn [for_each map].
    specialize (Hok alias) as Haccept.
    destruct (cluster_delete alias kwargs) as [[]|] eqn:Hanswer; [|done].
    erewrite bind_ok; cycle 1.
    { rewrite super_delete_run, get_connection_alias. by rewrite Hanswer. }
    rewrite IH. cbn [calls set_calls]. rewrite set_calls_set_calls.
    by rewrite <- app_assoc.
Qed.

Lemma others_without_default (aliases : list string) :
  "default" ∉ aliases → others aliases = aliases.
Proof.
  induction aliases as [|alias aliases IH]; intros Hnot; [done|].
  apply not_elem_of_cons in Hnot as [Hne Hnot].
  unfold others. rewrite filter_cons, decide_True by done.
  fold (others aliases). by rewrite IH.
Qed.

(** Among distinct aliases that include ["default"], the other aliases
    followed by ["default"] are all of them, each once. *)
Lemma others_then_default (aliases : list string) :
  NoDup aliases → "default" ∈ aliases →
  others aliases ++ ["default"] ≡ₚ aliases.
Proof.
  induction aliases as [|alias aliases IH]; intros Hnodup Hin.
  - by apply elem_of_nil in Hin.
  - apply NoDup_cons in Hnodup as [Hfresh Hnodup].
    unfold others. rewrite filter_cons. fold (others aliases).
    destruct (decide (alias ≠ "default")) as [Hne|Heq].
    + apply elem_of_cons in Hin as [Heq|Hin]; [done|].
      simpl. by rewrite IH.
    + assert (alias = "default") as -> by by destruct (decide (alias = "default")).
      rewrite others_without_default by done.
      by rewrite Permutation_app_comm.
Qed.

(** C1 (amended). With distinct cluster aliases that include
    ["default"], a document bound to the default connection, and
    clusters that accept their requests: [bulk] and [save] call every
    other cluster once, in configuration order, then ["default"] last,
    so every configured cluster exactly once, and return what
    ["default"] answered; [delete] calls every configured cluster
    exactly once in configuration order, ["default"] wherever the
    configuration has it, and returns nothing. *)
Theorem dispatch_reaches_every_cluster
    (self : Doc) (actions : actions_arg PK Value)
    (kwargs : gmap string kwval) (w w1 : W) items :
  NoDup (ELASTICSEARCH_DSL settings) →
  "default" ∈ ELASTICSEARCH_DSL settings →
  _index_using self = "default" →
  consume actions w = (items, None, w1) →
  (∀ client received, is_ok (cluster_bulk client received kwargs) = true) →
  (∀ alias, is_ok (cluster_save alias kwargs) = true) →
  (∀ alias, is_ok (cluster_delete alias kwargs) = true) →
  (∃ answer received made w',
     bulk settings cluster_bulk self actions kwargs w = (Ok answer, w')
     ∧ calls w' = calls w ++ made ++ [BulkCall "default" received]
     ∧ map call_alias made = others (ELASTICSEARCH_DSL settings)
     ∧ map call_alias (made ++ [BulkCall "default" received])
       ≡ₚ ELASTICSEARCH_DSL settings
     ∧ cluster_bulk "default" received kwargs = Ok answer)
  ∧ (∃ answer w',
       save settings cluster_save self kwargs w = (Ok answer, w')
       ∧ calls w'
         = calls w ++
           map SaveCall (others (ELASTICSEARCH_DSL settings) ++ ["default"])
       ∧ others (ELASTICSEARCH_DSL settings) ++ ["default"]
         ≡ₚ ELASTICSEARCH_DSL settings
       ∧ cluster_save "default" kwargs = Ok answer)
  ∧ delete settings cluster_delete self kwargs w
    = (Ok tt,
       set_calls w (calls w ++ map DeleteCall (ELASTICSEARCH_DSL settings))).
Proof.
  intros Hnodup Hdefault Husing Hconsume Hbulk Hsave Hdelete.
  pose proof (others_then_default _ Hnodup Hdefault) as Hperm.
  split; [|split].
  - rewrite (bulk_run self actions kwargs w w1 items Hconsume Hbulk).
    rewrite Husing.
    destruct (others (ELASTICSEARCH_DSL settings)) as [|first rest].
    + specialize (Hbulk "default" items) as Haccept.
      destruct (cluster_bulk "default" items kwargs) as [answer|] eqn:Hanswer;
        [|done].
      exists answer, items, []. eexists. split; [reflexivity|].
      repeat split; try done.
    + specialize (Hbulk "default" (leftover actions)) as Haccept.
      destruct (cluster_bulk "default" (leftover actions) kwargs)
        as [answer|] eqn:Hanswer; [|done].
      exists answer, (leftover actions),
        (BulkCall first items
         :: map (λ alias, BulkCall alias (leftover actions)) rest).
      eexists. split; [reflexivity|]. split.
      { cbn [calls set_calls]. rewrite map_app. done. }
      assert (map call_alias
                (BulkCall first items
                 :: map (λ alias, BulkCall alias (leftover actions)) rest)
              = first :: rest) as Haliases.
      { cbn [map call_alias]. f_equal. rewrite map_map. cbn [call_alias].
        apply map_id. }
      split; [done|]. split; [|done].
      rewrite map_app, Haliases. exact Hperm.
  - rewrite (save_run self kwargs w Hsave), Husing.
    specialize (Hsave "default") as Haccept.
    destruct (cluster_save "default" kwargs) as [answer|] eqn:Hanswer;
      [|done].
    exists answer. eexists. by split; [reflexivity|].
  - by apply delete_run.
Qed.

(** C10. [bulk] hands the same [actions] object to every cluster.  When
    it is a generator and some cluster other than ["default"] is
    configured, the first such cluster's call drains it and receives
    all it yields; every later call, the final one to the document's
    own (default) connection included, receives no action, and the
    value returned is that cluster's answer to an empty request. *)
Theorem bulk_shares_one_iterator
    (self : Doc) (ref : nat) (steps : list (L (Action PK Value)))
    (kwargs : gmap string kwval) (w : W) items active
    (first : string) (rest : list string) :
  others (ELASTICSEARCH_DSL settings) = first :: rest →
  generators w !! ref = Some steps →
  drain steps (language w) = (items, None, active) →
  (∀ client received, is_ok (cluster_bulk client received kwargs) = true) →
  ∃ w',
    bulk settings cluster_bulk self (ActionIter ref) kwargs w
    = (cluster_bulk (_index_using self) [] kwargs, w')
    ∧ calls w'
      = calls w ++ BulkCall first items ::
          map (λ alias, BulkCall alias []) (rest ++ [_index_using self])
    ∧ generators w' !! ref = Some [].
Proof.
  intros Hothers Hgen Hdrain Hok.
  assert (consume (ActionIter ref) w
          = (items, None,
             {| language := active;
                generators := <[ref := []]> (generators w);
                calls := calls w |})) as Hconsume.
  { simpl. rewrite Hgen. simpl. by rewrite Hdrain. }
  rewrite (bulk_run self (ActionIter ref) kwargs w _ items Hconsume Hok).
  rewrite Hothers. eexists. split; [reflexivity|].
  split; [done|]. simpl. apply lookup_insert_eq.
Qed.

End DispatchFacts.

Section UpdateFacts.

Context {Instance Value Related PK BulkResult : Type}.

Variable settings : Settings.
Variable _default_index : pyindex → pyindex.
Variable pk : Instance → PK.
Variable get_value_from_instance :
  Field → Instance → option Related → Lang → result Value.
Variable cluster_bulk :
  string → list (Action PK Value) → gmap string kwval → result BulkResult.

(** [update] hands [bulk] a generator, not a list: the object it passes
    is a fresh reference to the steps of [_get_actions], none of which
    has run yet. *)
Lemma update_passes_generator
    (self : DocType Instance Value Related) (object_list : list Instance)
    (action : string) (w : World PK Value) :
  ∃ kwargs,
    update settings _default_index pk get_value_from_instance cluster_bulk
      self (ManyModels object_list) None action ∅ w
    = bulk settings cluster_bulk self
        (ActionIter (fresh (dom (generators w)))) kwargs
        {| language := language w;
           generators :=
             <[fresh (dom (generators w)) :=
                 _get_actions settings _default_index pk
                   get_value_from_instance self object_list action true]>
               (generators w);
           calls := calls w |}.
Proof.
  unfold update. rewrite lookup_empty. cbn [from_option].
  destruct (auto_refresh self); eexists;
    (erewrite bind_ok; [|reflexivity]).
  - rewrite !lookup_insert_ne by done.
    rewrite !lookup_delete_ne by done. rewrite !lookup_empty. reflexivity.
  - rewrite !lookup_delete_ne by done. rewrite !lookup_empty. reflexivity.
Qed.

End UpdateFacts.

(** ** Model field mapping *)

(** The twenty classes of the table are mapped; any other class is
    not. *)
Lemma other_field_not_mapped (qualified_name : string) :
  dict_getitem model_field_class_to_field_class
    (models.OtherField qualified_name) = None.
Proof. reflexivity. Qed.

Lemma table_covers_named_classes (cls : models.field_class) :
  (∀ qualified_name, cls ≠ models.OtherField qualified_name) →
  is_Some (dict_getitem model_field_class_to_field_class cls).
Proof.
  intros Hnamed. destruct cls as [| | | | | | | | | | | | | | | | | | | |name];
    try (by eexists).
  by destruct (Hnamed name).
Qed.

(** ** search.py *)

Section MaterializerFacts.

Context {PK Request Model Row : Type} `{EqDecision PK}.

Variable settings : Settings.
Variable es_search : search.Search PK Request Model → list (search.Hit PK).
Variable super_to_dict :
  search.Search PK Request Model → bool → gmap string search.json
  → gmap string search.json.
Variable row_pk : Row → PK.

Local Abbreviation Srch := (search.Search PK Request Model).

(** C7 (amended). [to_dict(count=True)] is the body the parent class
    builds, unchanged: the override adds neither ['from'] nor ['size'],
    and the body carries them only where the parent put them.
    [to_dict(count=False)] always contains both keys: the parent's
    value where the body already has one, otherwise [0] for ['from']
    and the configured page size (10 when not configured) for
    ['size']; every other key is the parent's. *)
Theorem to_dict_pagination_defaults (self : Srch)
    (kwargs : gmap string search.json) :
  let body := super_to_dict self false kwargs in
  let wire := search.to_dict settings super_to_dict self false kwargs in
  search.to_dict settings super_to_dict self true kwargs
  = super_to_dict self true kwargs
  ∧ wire !! "from" = Some (default (search.JInt 0) (body !! "from"))
  ∧ wire !! "size"
    = Some (default
              (search.JInt
                 (getattr (ELASTICSEARCH_DSL_LOAD_PER_QUERY settings) 10%Z))
              (body !! "size"))
  ∧ ∀ key, key ≠ "from" → key ≠ "size" → wire !! key = body !! key.
Proof.
  cbv zeta. unfold search.to_dict. cbn [negb].
  split; [done|].
  set (body := super_to_dict self false kwargs).
  destruct (body !! "from") as [from|] eqn:Hfrom; cbn [default from_option].
  - destruct (body !! "size") as [size|] eqn:Hsize; cbn [default from_option].
    + by rewrite Hfrom, Hsize.
    + rewrite lookup_insert_eq, lookup_insert_ne, Hfrom by done.
      repeat split. intros key ??. by rewrite lookup_insert_ne.
  - rewrite lookup_insert_ne by done.
    destruct (body !! "size") as [size|] eqn:Hsize; cbn [default from_option].
    + rewrite lookup_insert_eq, lookup_insert_ne, Hsize by done.
      repeat split. intros key ??. by rewrite lookup_insert_ne.
    + rewrite lookup_insert_eq, lookup_insert_ne, lookup_insert_eq by done.
      repeat split. intros key ??. by rewrite !lookup_insert_ne.
Qed.

(** *** Order of the rows *)

(** The position [enumerate] gives an identifier is what the [CASE]
    expression evaluates to on it. *)
Lemma case_value_lookup (ids : list PK) (pos : nat) (pk : PK) (value : nat) :
  search.case_value (search.whens_from pos ids) pk = Some value →
  ∃ i, value = pos + i ∧ ids !! i = Some pk.
Proof.
  revert pos. induction ids as [|id ids IH]; intros pos; simpl; [done|].
  destruct (decide (id = pk)) as [->|Hne].
  - intros [= <-]. exists 0. split; [lia | done].
  - intros Hvalue. destruct (IH _ Hvalue) as (i & -> & Hi).
    exists (S i). split; [lia | done].
Qed.

Lemma case_value_elem (ids : list PK) (pos : nat) (pk : PK) :
  pk ∈ ids → is_Some (search.case_value (search.whens_from pos ids) pk).
Proof.
  revert pos. induction ids as [|id ids IH]; intros pos Hin; simpl.
  - by apply elem_of_nil in Hin.
  - destruct (decide (id = pk)); [by eexists|].
    apply elem_of_cons in Hin as [->|Hin]; [done | by apply IH].
Qed.

Lemma case_value_at (ids : list PK) (i : nat) (pk : PK) :
  NoDup ids → ids !! i = Some pk →
  search.case_value (search.whens_from 0 ids) pk = Some i.
Proof.
  intros Hnodup Hi.
  destruct (case_value_elem ids 0 pk) as [value Hvalue].
  { by eapply list_elem_of_lookup_2. }
  destruct (case_value_lookup _ _ _ _ Hvalue) as (j & -> & Hj).
  by rewrite (NoDup_lookup ids i j pk Hnodup Hi Hj).
Qed.

Lemma whens_from_imap (ids : list PK) (pos : nat) :
  search.whens_from pos ids
  = imap (λ i pk, {| search.when_pk := pk; search.then_ := pos + i |}) ids.
Proof.
  revert pos. induction ids as [|id ids IH]; intros pos; [done|].
  simpl. rewrite Nat.add_0_r. f_equal. rewrite IH.
  apply imap_ext. intros i pk _. simpl. f_equal. lia.
Qed.

Lemma StronglySorted_by_position {A} (R : relation A) (l : list A) :
  (∀ i j x y, i < j → l !! i = Some x → l !! j = Some y → R x y) →
  StronglySorted R l.
Proof.
  induction l as [|a l IH]; intros Hpos; constructor.
  - apply IH. intros i j x y Hlt Hi Hj.
    by apply (Hpos (S i) (S j)); [lia|..].
  - apply Forall_forall. intros y Hy.
    apply list_elem_of_lookup in Hy as [j Hj].
    by apply (Hpos 0 (S j) a y); [lia|..].
Qed.

Lemma StronglySorted_filter {A} (R : relation A) (P : A → Prop)
    `{∀ x, Decision (P x)} (l : list A) :
  StronglySorted R l → StronglySorted R (filter P l).
Proof.
  induction 1 as [|a l Hsorted IH Hhead]; [constructor|].
  rewrite filter_cons. destruct (decide (P a)); [|done].
  constructor; [done|].
  apply Forall_forall. intros y Hy.
  apply list_elem_of_filter in Hy as [_ Hy].
  by eapply Forall_forall in Hhead.
Qed.

Lemma key_le_trans a b c :
  search.key_le a b → search.key_le b c → search.key_le a c.
Proof. destruct a, b, c; simpl; try done. lia. Qed.

Lemma key_le_total a b : search.key_le a b ∨ search.key_le b a.
Proof. destruct a, b; simpl; try tauto. lia. Qed.

(** Rows with distinct primary keys, fetched through the queryset of
    [to_queryset], come in the order of the identifiers. *)
Lemma fetch_in_hit_order (table : list Row) (bound : Model)
    (ids : list PK) :
  NoDup ids → NoDup (map row_pk table) →
  map row_pk
    (search.fetch row_pk table
       {| search.model := bound;
          search.pk__in := ids;
          search.order_by := Some (search.Case (search.whens_from 0 ids)) |})
  = filter (λ id, id ∈ map row_pk table) ids.
Proof.
  intros Hids Htable. unfold search.fetch.
  cbn [search.pk__in search.order_by search.order_key].
  set (position := search.case_value (search.whens_from 0 ids)).
  set (by_key := λ r1 r2 : Row,
         search.key_le (position (row_pk r1)) (position (row_pk r2))).
  set (selected := filter (λ row, row_pk row ∈ ids) table).
  set (by_position := λ a b : PK, search.key_le (position a) (position b)).
  assert (Transitive by_key) as Htrans.
  { intros x y z. apply key_le_trans. }
  assert (Total by_key) as Htotal.
  { intros x y. apply key_le_total. }
  apply (StronglySorted_unique_strong by_position).
  - intros x1 x2 _ Hx2 H12 H21.
    apply list_elem_of_filter in Hx2 as [_ Hx2].
    apply list_elem_of_lookup in Hx2 as [j Hj].
    unfold by_position, position in *.
    rewrite (case_value_at ids j x2 Hids Hj) in H12, H21.
    destruct (search.case_value (search.whens_from 0 ids) x1)
      as [i|] eqn:Hx1; [|done].
    apply case_value_lookup in Hx1 as (i' & -> & Hi). simpl in *.
    assert (i' = j) as -> by lia. congruence.
  - apply (StronglySorted_fmap row_pk by_key by_position); [done|].
    apply StronglySorted_merge_sort; done.
  - apply StronglySorted_filter.
    apply StronglySorted_by_position. intros i j x y Hlt Hi Hj.
    unfold by_position, position.
    rewrite (case_value_at ids i x Hids Hi), (case_value_at ids j y Hids Hj).
    simpl. lia.
  - apply NoDup_Permutation.
    + rewrite merge_sort_Permutation.
      eapply sublist_NoDup; [exact Htable|].
      apply (fmap_sublist row_pk), sublist_filter.
    + by apply NoDup_filter.
    + intros x. rewrite merge_sort_Permutation.
      rewrite list_elem_of_fmap, list_elem_of_filter. split.
      * intros (row & -> & Hrow).
        apply list_elem_of_filter in Hrow as [Hin Hrow].
        split; [|done]. by apply list_elem_of_fmap_2.
      * intros [Hx Hin]. apply list_elem_of_fmap in Hx as (row & -> & Hrow).
        exists row. split; [done|]. by apply list_elem_of_filter.
Qed.

(** C4. A search without cached response is sent once more, as a clone
    whose source filter excludes every field, and the hits of that
    execution are used; a search with a cached response is not sent
    again.  With [keep_order] the queryset is filtered to the hits'
    identifiers and ordered by one [CASE] expression that maps each
    identifier to its position; fetched from a table with distinct
    primary keys, for hits with distinct identifiers, its rows come in
    exactly the order of the identifiers in the hits. *)
Theorem to_queryset_keeps_hit_order (self : Srch) (table : list Row) :
  let unloaded := search.source_excludes self ["*"] in
  let hits :=
    match search._response self with
    | Some response => response
    | None => es_search unloaded
    end in
  let ids := map search.meta_id hits in
  let run := search.to_queryset es_search self true in
  (search._response self = None →
   run.1 = [unloaded]
   ∧ search._response unloaded = None
   ∧ search._source unloaded ≫= (.!! "excludes") = Some ["*"])
  ∧ (is_Some (search._response self) → run.1 = [])
  ∧ search.model run.2 = search._model self
  ∧ search.pk__in run.2 = ids
  ∧ search.order_by run.2
    = Some (search.Case
              (imap (λ position pk,
                       {| search.when_pk := pk; search.then_ := position |})
                 ids))
  ∧ (NoDup ids → NoDup (map row_pk table) →
     map row_pk (search.fetch row_pk table run.2)
     = filter (λ id, id ∈ map row_pk table) ids).
Proof.
  cbv zeta. unfold search.to_queryset.
  destruct (search._response self) as [response|] eqn:Hresponse;
    cbn [fst snd search.model search.pk__in search.order_by].
  - split; [done|]. split; [done|]. split; [done|]. split; [done|]. split.
    + by rewrite whens_from_imap.
    + apply fetch_in_hit_order.
  - split.
    { intros _. split; [done|]. split; [done|].
      simpl. by rewrite lookup_insert_eq. }
    split; [by intros [? ?]|]. split; [done|]. split; [done|]. split.
    + by rewrite whens_from_imap.
    + apply fetch_in_hit_order.
Qed.

End MaterializerFacts.

(** ** Where [ModelFieldNotMappedError] can come from *)

Section SynchronizationErrors.

Context {Instance Value Related PK BulkResult : Type}.

Variable settings : Settings.
Variable _default_index : pyindex → pyindex.
Variable pk : Instance → PK.
Variable get_value_from_instance :
  Field → Instance → option Related → Lang → result Value.
Variable cluster_bulk :
  string → list (Action PK Value) → gmap string kwval → result BulkResult.
Variable self : DocType Instance Value Related.

(** The collaborators (hooks, extractor, translation, clusters) do not
    raise the error themselves. *)
Hypothesis hooks_clean :
  ∀ name hook instance call active,
    attribute self name = Some hook →
    not_from_to_field (hook instance call active).
Hypothesis translate_clean :
  ∀ name value silently active,
    not_from_to_field (translate_field self name value silently active).
Hypothesis extract_clean :
  ∀ field instance related active,
    not_from_to_field (get_value_from_instance field instance related active).
Hypothesis cluster_clean :
  ∀ client received kwargs,
    not_from_to_field (cluster_bulk client received kwargs).

Local Abbreviation W := (World PK Value).

Lemma rbind_clean {A B} (r : result A) (k : A → result B) :
  not_from_to_field r → (∀ a, not_from_to_field (k a)) →
  not_from_to_field (rbind r k).
Proof. destruct r; simpl; auto. Qed.

Lemma prepare_field_clean instance silently name field active :
  not_from_to_field
    (prepare_field settings get_value_from_instance self instance silently
       name field active).
Proof.
  unfold prepare_field. apply rbind_clean.
  - destruct (attribute self ("prepare_" +:+ name +:+ "_with_related"))
      as [hook|] eqn:Hrelated; [by eapply hooks_clean|].
    destruct (attribute self ("prepare_" +:+ name)) as [hook|] eqn:Hplain;
      [by eapply hooks_clean | apply extract_clean].
  - intros value. destruct (getattr _ false); [apply translate_clean | done].
Qed.

Lemma prepare_loop_clean instance silently fields data active :
  not_from_to_field
    (prepare_loop settings get_value_from_instance self instance silently
       fields data active).
Proof.
  revert data. induction fields as [|[name field] fields IH]; intros data;
    simpl; [done|].
  destruct (is_DEDField field); simpl; [|apply IH].
  apply rbind_clean; [apply prepare_field_clean | intros; apply IH].
Qed.

Lemma action_dict_clean object_instance action language silently active :
  not_from_to_field
    (action_dict settings _default_index pk get_value_from_instance self
       object_instance action language silently active).
Proof.
  unfold action_dict. apply rbind_clean.
  - unfold get_custom_index_name. apply rbind_clean.
    + by destruct (_index_name self).
    + intros index. by destruct (negb _).
  - intros index. apply rbind_clean; [|done].
    destruct (negb _); [|done].
    apply rbind_clean; [apply prepare_loop_clean | done].
Qed.

Lemma prepare_action_clean object_instance action language silently :
  clean_step
    (_prepare_action settings _default_index pk get_value_from_instance
       self object_instance action language silently).
Proof.
  intros active. rewrite prepare_action_run. apply action_dict_clean.
Qed.

Lemma flat_map_Forall {A B} (P : B → Prop) (f : A → list B) (xs : list A) :
  (∀ x, Forall P (f x)) → Forall P (flat_map f xs).
Proof.
  intros Hf. induction xs as [|x xs IH]; simpl; [done|].
  apply Forall_app. auto.
Qed.

Lemma paginated_clean object_list per_page
    (body : Instance → list (L (Action PK Value))) :
  (∀ object_instance, Forall clean_step (body object_instance)) →
  Forall clean_step (paginated object_list per_page body).
Proof.
  intros Hbody. unfold paginated, page_range, num_pages.
  destruct per_page as [|p]; simpl.
  - by repeat constructor.
  - apply flat_map_Forall. intros page. by apply flat_map_Forall.
Qed.

Lemma get_actions_clean object_list action silently :
  Forall clean_step
    (_get_actions settings _default_index pk get_value_from_instance self
       object_list action silently).
Proof.
  unfold _get_actions.
  destruct (getattr _ false); destruct (queryset_pagination self).
  - apply paginated_clean. intros o. apply Forall_forall. intros step Hin.
    apply list_elem_of_In, in_map_iff in Hin as (l & <- & _).
    apply prepare_action_clean.
  - apply flat_map_Forall. intros o. apply Forall_forall. intros step Hin.
    apply list_elem_of_In, in_map_iff in Hin as (l & <- & _).
    apply prepare_action_clean.
  - apply paginated_clean. intros o. repeat constructor.
    apply prepare_action_clean.
  - apply Forall_forall. intros step Hin.
    apply list_elem_of_In, in_map_iff in Hin as (o & <- & _).
    apply prepare_action_clean.
Qed.

Lemma drain_clean (steps : list (L (Action PK Value))) (active : Lang) :
  Forall clean_step steps →
  match (drain steps active).1.2 with
  | Some e => raised_by_to_field e = false
  | None => True
  end.
Proof.
  intros Hsteps. revert active.
  induction Hsteps as [|step steps Hstep _ IH]; intros active; simpl; [done|].
  specialize (Hstep active).
  destruct (step active) as [[a|e] active']; simpl in *; [|done].
  specialize (IH active').
  by destruct (drain steps active') as [[rest raised] active''].
Qed.

Lemma bind_clean {A B} (m : M (PK := PK) (Value := Value) A)
    (k : A → M B) :
  clean_run m → (∀ a, clean_run (k a)) → clean_run (bind m k).
Proof.
  intros Hm Hk w Hw. unfold bind. specialize (Hm w Hw).
  destruct (m w) as [[a|e] w']; simpl in *; [|done].
  apply Hk, Hm.
Qed.

Lemma ret_clean {A} (a : A) :
  clean_run (ret (PK := PK) (Value := Value) a).
Proof. by intros w Hw. Qed.

Lemma for_each_clean {A} (xs : list A)
    (body : A → M (PK := PK) (Value := Value) unit) :
  (∀ x, clean_run (body x)) → clean_run (for_each xs body).
Proof.
  intros Hbody. induction xs as [|x xs IH]; simpl; [apply ret_clean|].
  by apply bind_clean.
Qed.

Lemma helpers_bulk_clean client actions kwargs :
  clean_run (helpers_bulk cluster_bulk client actions kwargs).
Proof.
  intros w Hw. unfold helpers_bulk.
  destruct actions as [items|ref]; simpl.
  - split; [apply cluster_clean | intros ref steps; apply Hw].
  - pose proof (drain_clean (default [] (generators w !! ref)) (language w))
      as Hdrain.
    destruct (drain _ _) as [[items raised] active] eqn:Hrun. simpl in *.
    assert (clean_world
              (set_calls
                 {| language := active;
                    generators := <[ref := []]> (generators w);
                    calls := calls w |}
                 (calls w ++ [BulkCall client items]))) as Hafter.
    { intros ref' steps'. simpl. rewrite lookup_insert.
      case_decide; [by intros [= <-] | apply Hw]. }
    destruct raised as [e|]; simpl.
    + split; [|done]. apply Hdrain.
      destruct (generators w !! ref) as [steps|] eqn:Hsteps; simpl; [|done].
      by eapply Hw.
    + split; [apply cluster_clean | done].
Qed.

Lemma bulk_clean actions kwargs :
  clean_run (bulk settings cluster_bulk self actions kwargs).
Proof.
  unfold bulk. apply bind_clean.
  - apply for_each_clean. intros alias. destruct (negb _); [|apply ret_clean].
    apply bind_clean; [apply helpers_bulk_clean | intros; apply ret_clean].
  - intros _. apply helpers_bulk_clean.
Qed.

(** No [update], whatever it is given, ends in the error [to_field]
    raises: synchronization does not resolve model fields. *)
Lemma update_never_raises_not_mapped thing refresh action kwargs :
  clean_run
    (update settings _default_index pk get_value_from_instance cluster_bulk
       self thing refresh action kwargs).
Proof.
  unfold update. apply bind_clean.
  - intros w Hw. unfold new_generator. simpl. split; [done|].
    intros ref steps. cbn [generators]. rewrite lookup_insert.
    case_decide; [|apply Hw]. intros [= <-]. apply get_actions_clean.
  - intros ref.
    repeat match goal with
           | |- context [match ?x with _ => _ end] => destruct x
           end;
      first [apply bulk_clean | by intros w Hw].
Qed.

End SynchronizationErrors.

(** *** Definition of a document class *)

(** [define_fields] returns exactly the list that holds, in the order of
    the declaration, what [to_field] returns for each declared field. *)
Lemma define_fields_returns (declared : list (string * models.Field))
    (mapping : list (string * fields.instance)) :
  define_fields declared = Ok mapping
  ↔ Forall2 (λ d m, m.1 = d.1 ∧ to_field d.1 d.2 = Ok m.2) declared mapping.
Proof.
  revert mapping.
  induction declared as [|[name model_field] declared IH]; intros mapping;
    simpl.
  - split; [intros [= <-]; constructor|].
    intros Hnil. by apply Forall2_nil_inv_l in Hnil as ->.
  - destruct (to_field name model_field) as [field|e] eqn:Hfield; simpl.
    + destruct (define_fields declared) as [rest|e] eqn:Hrest; simpl.
      * split.
        -- intros [= <-]. constructor; [done|]. by apply IH.
        -- intros Hcons.
           apply Forall2_cons_inv_l in Hcons
             as ([n f] & rest' & [Hn Hf] & Hrest' & ->).
           simpl in Hn, Hf. apply IH in Hrest'. congruence.
      * split; [done|]. intros Hcons.
        apply Forall2_cons_inv_l in Hcons as (m & rest' & _ & Hrest' & ->).
        by apply IH in Hrest'.
    + split; [done|]. intros Hcons.
      apply Forall2_cons_inv_l in Hcons as (m & rest' & [_ Hf] & _ & ->).
      simpl in Hf. congruence.
Qed.

(** It raises for the first declared field whose class is not mapped. *)
Lemma define_fields_first_unmapped
    (before after : list (string * models.Field))
    (name : string) (model_field : models.Field) :
  Forall (λ d, is_Some (dict_getitem model_field_class_to_field_class
                          (models.__class__ d.2))) before →
  dict_getitem model_field_class_to_field_class
    (models.__class__ model_field) = None →
  define_fields (before ++ (name, model_field) :: after)
  = Raise (ModelFieldNotMappedError (not_mapped_message name)).
Proof.
  intros Hbefore Hunmapped.
  induction Hbefore as [|[n f] before [cls Hcls] _ IH];
    cbn [app define_fields].
  - unfold to_field. by rewrite Hunmapped.
  - unfold to_field at 1. cbn [snd] in Hcls. rewrite Hcls. cbn [rbind].
    by rewrite IH.
Qed.

Lemma define_fields_raises (declared : list (string * models.Field)) :
  (∃ e, define_fields declared = Raise e)
  ↔ Exists (λ d, dict_getitem model_field_class_to_field_class
                   (models.__class__ d.2) = None) declared.
Proof.
  induction declared as [|[name model_field] declared IH];
    cbn [define_fields].
  - split; [by intros [e ?] | by intros ?%Exists_nil].
  - rewrite Exists_cons. cbn [snd]. unfold to_field at 1.
    destruct (dict_getitem _ (models.__class__ model_field)) as [cls|];
      cbn [rbind].
    + rewrite <- IH.
      destruct (define_fields declared) as [rest|e]; cbn [rbind].
      * split; [by intros [e ?] | by intros [?|[e ?]]].
      * split; [by right; eexists | by eexists].
    + split; [by left | by eexists].
Qed.

(** C8. [to_field] raises if and only if the class of the model field
    has no entry in [model_field_class_to_field_class]; the exception
    is then [ModelFieldNotMappedError] with a message that names the
    field.  For a mapped class it returns an instance of the mapped
    search field class built with [attr=field_name].  The error arises
    when the document class is defined: defining raises exactly when a
    declared field is not mapped, for the first such field, and a
    program that defines the document and then synchronises ends there,
    before any cluster is called or any generator made; a definition
    that returns has resolved every declared field with [to_field], and
    synchronisation runs on its result.  Synchronisation itself does
    not resolve fields: an [update], with collaborators that do not
    raise the error themselves, never ends in it. *)
Theorem to_field_raises_iff_unmapped
    (field_name : string) (model_field : models.Field) :
  let mapped :=
    dict_getitem model_field_class_to_field_class
      (models.__class__ model_field) in
  ((∃ e, to_field field_name model_field = Raise e) ↔ mapped = None)
  ∧ (mapped = None →
     to_field field_name model_field
     = Raise (ModelFieldNotMappedError
                ("Cannot convert model field " +:+ field_name
                 +:+ " to an Elasticsearch field!")))
  ∧ (∀ cls, mapped = Some cls →
     to_field field_name model_field
     = Ok {| fields.class_of := cls; fields.attr := field_name |})
  ∧ (∀ declared,
       (∃ e, define_fields declared = Raise e)
       ↔ Exists (λ d, dict_getitem model_field_class_to_field_class
                        (models.__class__ d.2) = None) declared)
  ∧ (∀ before after,
       Forall (λ d, is_Some (dict_getitem model_field_class_to_field_class
                               (models.__class__ d.2))) before →
       mapped = None →
       let declared := before ++ (field_name, model_field) :: after in
       let error :=
         ModelFieldNotMappedError
           ("Cannot convert model field " +:+ field_name
            +:+ " to an Elasticsearch field!") in
       define_fields declared = Raise error
       ∧ ∀ (PK Value A : Type)
           (synchronize :
              list (string * fields.instance)
              → M (PK := PK) (Value := Value) A)
           (w : World PK Value),
           bind (define_document declared) synchronize w = (Raise error, w))
  ∧ (∀ declared mapping,
       define_fields declared = Ok mapping →
       Forall2 (λ d m, m.1 = d.1 ∧ to_field d.1 d.2 = Ok m.2) declared mapping
       ∧ ∀ (PK Value A : Type)
           (synchronize :
              list (string * fields.instance)
              → M (PK := PK) (Value := Value) A)
           (w : World PK Value),
           bind (define_document declared) synchronize w
           = synchronize mapping w)
  ∧ (∀ (Instance Value Related PK BulkResult : Type)
       settings _default_index (pk : Instance → PK)
       (get_value_from_instance :
          Field → Instance → option Related → Lang → result Value)
       (cluster_bulk :
          string → list (Action PK Value) → gmap string kwval
          → result BulkResult)
       (self : DocType Instance Value Related)
       thing refresh action kwargs (w : World PK Value),
       (∀ name hook instance call active,
          attribute self name = Some hook →
          not_from_to_field (hook instance call active)) →
       (∀ name value silently active,
          not_from_to_field
            (translate_field self name value silently active)) →
       (∀ field instance related active,
          not_from_to_field
            (get_value_from_instance field instance related active)) →
       (∀ client received kw,
          not_from_to_field (cluster_bulk client received kw)) →
       clean_world w →
       ∀ message,
         (update settings _default_index pk get_value_from_instance
            cluster_bulk self thing refresh action kwargs w).1
         ≠ Raise (ModelFieldNotMappedError message)).
Proof.
  cbv zeta.
  assert (∀ (Instance Value Related PK BulkResult : Type)
            settings _default_index (pk : Instance → PK)
            (get_value_from_instance :
               Field → Instance → option Related → Lang → result Value)
            (cluster_bulk :
               string → list (Action PK Value) → gmap string kwval
               → result BulkResult)
            (self : DocType Instance Value Related)
            thing refresh action kwargs (w : World PK Value),
            (∀ name hook instance call active,
               attribute self name = Some hook →
               not_from_to_field (hook instance call active)) →
            (∀ name value silently active,
               not_from_to_field
                 (translate_field self name value silently active)) →
            (∀ field instance related active,
               not_from_to_field
                 (get_value_from_instance field instance related active)) →
            (∀ client received kw,
               not_from_to_field (cluster_bulk client received kw)) →
            clean_world w →
            ∀ message,
              (update settings _default_index pk get_value_from_instance
                 cluster_bulk self thing refresh action kwargs w).1
              ≠ Raise (ModelFieldNotMappedError message)) as Hupdate.
  { intros ???????????????? Hhooks Htranslate Hextract Hcluster Hworld message.
    intros Hraised.
    destruct (update_never_raises_not_mapped settings _default_index pk
                get_value_from_instance cluster_bulk self Hhooks Htranslate
                Hextract Hcluster thing refresh action kwargs w Hworld)
      as [Hclean _].
    by rewrite Hraised in Hclean. }
  assert (∀ before after,
            Forall (λ d, is_Some (dict_getitem model_field_class_to_field_class
                                    (models.__class__ d.2))) before →
            dict_getitem model_field_class_to_field_class
              (models.__class__ model_field) = None →
            define_fields (before ++ (field_name, model_field) :: after)
            = Raise (ModelFieldNotMappedError
                       ("Cannot convert model field " +:+ field_name
                        +:+ " to an Elasticsearch field!"))
            ∧ ∀ (PK Value A : Type)
                (synchronize :
                   list (string * fields.instance)
                   → M (PK := PK) (Value := Value) A)
                (w : World PK Value),
                bind (define_document
                        (before ++ (field_name, model_field) :: after))
                  synchronize w
                = (Raise (ModelFieldNotMappedError
                            ("Cannot convert model field " +:+ field_name
                             +:+ " to an Elasticsearch field!")), w))
    as Heager.
  { intros before after Hbefore Hunmapped.
    pose proof (define_fields_first_unmapped before after field_name
                  model_field Hbefore Hunmapped) as Hraise.
    split; [exact Hraise|].
    intros PK Value A synchronize w. unfold bind, define_document.
    by rewrite Hraise. }
  assert (∀ declared mapping,
            define_fields declared = Ok mapping →
            Forall2 (λ d m, m.1 = d.1 ∧ to_field d.1 d.2 = Ok m.2)
              declared mapping
            ∧ ∀ (PK Value A : Type)
                (synchronize :
                   list (string * fields.instance)
                   → M (PK := PK) (Value := Value) A)
                (w : World PK Value),
                bind (define_document declared) synchronize w
                = synchronize mapping w) as Hdefined.
  { intros declared mapping Hmapping.
    split; [by apply define_fields_returns|].
    intros PK Value A synchronize w. unfold bind, define_document.
    by rewrite Hmapping. }
  unfold to_field.
  destruct (dict_getitem _ _) as [cls|] eqn:Hmapped.
  - split; [split; [by intros [e ?] | done]|].
    split; [done|]. split; [by intros ? [= <-]|].
    split; [apply define_fields_raises|].
    split; [done|]. by split.
  - split; [split; [done | by eexists]|].
    split; [done|]. split; [done|].
    split; [apply define_fields_raises|].
    split; [|by split].
    intros before after Hbefore _. by apply Heager.
Qed.

(** * The properties on the sample configurations *)

(** Against C1 as stated, for [delete]: with the clusters configured as
    ["default"], ["replica"], the default cluster is called first, not
    last. *)
Lemma delete_calls_default_first :
  let run :=
    delete base_settings accepting_delete
      (article_doc (IndexName "articles") None) ∅
      (idle_world (PK := nat) (Value := string)) in
  run.1 = Ok tt
  ∧ map call_alias (calls run.2) = ["default"; "replica"]
  ∧ last (map call_alias (calls run.2)) ≠ Some "default".
Proof. vm_compute. repeat split. discriminate. Qed.

Lemma dispatch_reaches_every_cluster_witness :
  let doc := article_doc (IndexName "articles") None in
  let w := idle_world (PK := nat) (Value := string) in
  (∃ answer w',
     bulk translated_settings accepting_bulk doc (ActionList []) ∅ w
     = (Ok answer, w')
     ∧ answer.2 = "default"
     ∧ map call_alias (calls w') = ["replica"; "archive"; "default"])
  ∧ (∃ answer w',
       save translated_settings accepting_save doc ∅ w = (Ok answer, w')
       ∧ answer = "saved on default"
       ∧ map call_alias (calls w') = ["replica"; "archive"; "default"])
  ∧ map call_alias
      (calls (delete translated_settings accepting_delete doc ∅ w).2)
    = ["replica"; "default"; "archive"].
Proof.
  intros doc w.
  destruct (dispatch_reaches_every_cluster translated_settings
              accepting_bulk accepting_save accepting_delete
              doc (ActionList []) ∅ w w [])
    as [Hbulk [Hsave Hdelete]].
  - apply (bool_decide_unpack _). by vm_compute.
  - apply (bool_decide_unpack _). by vm_compute.
  - reflexivity.
  - reflexivity.
  - by intros client received.
  - by intros alias.
  - by intros alias.
  - split; [|split].
    + destruct Hbulk
        as (answer & received & made & w' & Hrun & Hcalls & Hmade & _ & Hanswer).
      exists answer, w'. split; [exact Hrun|]. split.
      * by injection Hanswer as <-.
      * rewrite Hcalls, !map_app, Hmade. reflexivity.
    + destruct Hsave as (answer & w' & Hrun & Hcalls & _ & Hanswer).
      exists answer, w'. split; [exact Hrun|]. split.
      * by injection Hanswer as <-.
      * rewrite Hcalls, map_app, map_map. reflexivity.
    + rewrite Hdelete. cbn [snd calls set_calls].
      rewrite map_app, map_map. reflexivity.
Defined.

Lemma bulk_shares_one_iterator_witness :
  ∃ w',
    bulk translated_settings accepting_bulk
      (article_doc (IndexSeq ["articles"]) None) (ActionIter 0) ∅
      pending_world
    = (Ok (0, "default"), w')
    ∧ map call_summary (calls w')
      = [("replica", 4); ("archive", 0); ("default", 0)]
    ∧ generators w' !! 0 = Some [].
Proof.
  destruct (bulk_shares_one_iterator translated_settings accepting_bulk
              (article_doc (IndexSeq ["articles"]) None) 0 pending_actions ∅
              pending_world (drain pending_actions None).1.1
              (drain pending_actions None).2 "replica" ["archive"])
    as (w' & Hrun & Hcalls & Hgen).
  - by vm_compute.
  - by vm_compute.
  - by vm_compute.
  - by intros client received.
  - exists w'. split; [exact Hrun|]. split; [|exact Hgen].
    rewrite Hcalls. by vm_compute.
Defined.

Lemma prepare_action_scopes_language_witness :
  let run :=
    _prepare_action translated_settings
      (dsl_default_index (IndexName "articles")) id article_extract
      (article_doc (IndexName "articles") None) 7 "index" (Some "fr") true
      (Some "de") in
  run.1 = Raise (UnboundLocalError "i")
  ∧ get_language run.2 = Some "de".
Proof.
  intros run. split; [reflexivity|].
  apply (proj2 (proj2 (prepare_action_scopes_language translated_settings
                         (dsl_default_index (IndexName "articles")) id
                         article_extract
                         (article_doc (IndexName "articles") None) 7 "index"
                         (Some "fr") true (Some "de")))
           (UnboundLocalError "i")).
  reflexivity.
Defined.

Lemma prepare_resolves_by_priority_witness :
  let doc := article_doc (IndexSeq ["articles"]) None in
  NoDup (_fields doc).*1
  ∧ ∃ data,
      prepare translated_settings article_extract doc 7 true (Some "fr")
      = Ok data
      ∧ data !! "summary" = Some "summary, related-aware"
      ∧ data !! "slug" = Some "slug in fr"
      ∧ data !! "title" = Some "title"
      ∧ data !! "body" = Some "content-text".
Proof.
  intros doc.
  assert (NoDup (_fields doc).*1) as Hnodup.
  { apply (bool_decide_unpack _). by vm_compute. }
  split; [exact Hnodup|].
  destruct (prepare_resolves_by_priority translated_settings article_extract
              doc 7 true (Some "fr") Hnodup) as [(data & Hrun & Hfields) _].
  { repeat constructor. }
  exists data. split; [exact Hrun|].
  assert (∀ name field expected,
            (name, field) ∈ _fields doc → is_DEDField field = true →
            prepare_field translated_settings article_extract doc 7 true
              name field (Some "fr") = Ok expected →
            data !! name = Some expected) as Hstored.
  { intros name field expected Hin Hded Hexpected.
    destruct (Hfields name field Hin Hded)
      as (resolved & value & -> & Hresolved & Htranslated).
    unfold prepare_field in Hexpected.
    destruct (attribute doc ("prepare_" +:+ name +:+ "_with_related"))
      as [related_hook|].
    - rewrite Hresolved in Hexpected. simpl in Hexpected, Htranslated.
      congruence.
    - destruct (attribute doc ("prepare_" +:+ name)) as [hook|];
        rewrite Hresolved in Hexpected; simpl in Hexpected, Htranslated;
        congruence. }
  repeat split.
  - apply (Hstored "summary" {| is_DEDField := true; _path := [] |});
      [repeat constructor | done | by vm_compute].
  - apply (Hstored "slug" {| is_DEDField := true; _path := [] |});
      [repeat constructor | done | by vm_compute].
  - apply (Hstored "title" {| is_DEDField := true; _path := [] |});
      [repeat constructor | done | by vm_compute].
  - apply (Hstored "body"
             {| is_DEDField := true; _path := ["content"; "text"] |});
      [repeat constructor | done | by vm_compute].
Defined.

(** Against C7 as stated, a count query whose caller passed a size:
    the parent puts the keyword into the body and the override leaves
    it there. *)
Lemma count_body_keeps_caller_size :
  search.to_dict base_settings dsl_to_dict sliced_search true
    {[ "size" := search.JInt 3 ]} !! "size"
  = Some (search.JInt 3)
  ∧ search.to_dict base_settings dsl_to_dict sliced_search true ∅ !! "size"
    = None
  ∧ search.to_dict base_settings dsl_to_dict sliced_search false ∅
    = {[ "from" := search.JInt 20; "size" := search.JInt 10 ]}.
Proof. by vm_compute. Qed.

Lemma to_queryset_keeps_hit_order_witness :
  let run := search.to_queryset relevance_search sliced_search true in
  NoDup (map search.meta_id (relevance_search sliced_search))
  ∧ NoDup (map fst article_table)
  ∧ run.1 = [search.source_excludes sliced_search ["*"]]
  ∧ search.fetch fst article_table run.2
    = [ (30, "thirty"); (10, "ten"); (20, "twenty") ]
  ∧ map fst (search.fetch fst article_table run.2) = [30; 10; 20].
Proof.
  intros run.
  assert (NoDup (map search.meta_id (relevance_search sliced_search)))
    as Hids.
  { apply (bool_decide_unpack _). by vm_compute. }
  assert (NoDup (map fst article_table)) as Htable.
  { apply (bool_decide_unpack _). by vm_compute. }
  split; [exact Hids|]. split; [exact Htable|].
  destruct (to_queryset_keeps_hit_order relevance_search fst sliced_search
              article_table) as (Hsent & _ & _ & _ & _ & Horder).
  split; [by apply Hsent|]. split; [by vm_compute|].
  subst run. rewrite (Horder Hids Htable). by vm_compute.
Defined.

Lemma to_field_raises_iff_unmapped_witness :
  let foreign_key :=
    {| models.__class__ := models.OtherField "django.db.models.ForeignKey" |} in
  let char_field := {| models.__class__ := models.CharField |} in
  let slug_field := {| models.__class__ := models.SlugField |} in
  let error :=
    ModelFieldNotMappedError
      "Cannot convert model field author to an Elasticsearch field!" in
  let synchronize :=
    update translated_settings (dsl_default_index (IndexSeq ["articles"]))
      id article_extract accepting_bulk
      (article_doc (IndexSeq ["articles"]) None) (OneModel 7) None "index" ∅ in
  to_field "author" foreign_key = Raise error
  ∧ to_field "title" char_field
    = Ok {| fields.class_of := fields.TextField; fields.attr := "title" |}
  ∧ define_fields
      [("title", char_field); ("author", foreign_key); ("slug", slug_field)]
    = Raise error
  ∧ bind
      (define_document
         [("title", char_field); ("author", foreign_key);
          ("slug", slug_field)])
      (λ _, synchronize) (idle_world (PK := nat) (Value := string))
    = (Raise error, idle_world)
  ∧ bind (define_document [("title", char_field); ("slug", slug_field)])
      (λ _, synchronize) (idle_world (PK := nat) (Value := string))
    = synchronize idle_world
  ∧ (synchronize idle_world).1 = Ok (0, "default")
  ∧ (synchronize idle_world).1 ≠ Raise error.
Proof.
  intros foreign_key char_field slug_field error synchronize.
  destruct (to_field_raises_iff_unmapped "author" foreign_key)
    as (_ & Hraises & _ & _ & Heager & Hdefined & Hupdate).
  destruct (to_field_raises_iff_unmapped "title" char_field)
    as (_ & _ & Hreturns & _).
  destruct (Heager [("title", char_field)] [("slug", slug_field)])
    as [Hdefine Hprogram];
    [by repeat constructor; eexists | reflexivity |].
  split; [by apply Hraises|].
  split; [by apply Hreturns|].
  split; [exact Hdefine|].
  split; [apply Hprogram|].
  split.
  { apply (Hdefined [("title", char_field); ("slug", slug_field)]
             [("title",
               {| fields.class_of := fields.TextField;
                  fields.attr := "title" |});
              ("slug",
               {| fields.class_of := fields.KeywordField;
                  fields.attr := "slug" |})]).
    reflexivity. }
  split; [by vm_compute|].
  apply Hupdate.
  - intros name hook instance call active. simpl. unfold article_hooks.
    repeat case_match; intros [= <-]; done.
  - done.
  - done.
  - done.
  - intros ref steps Hsteps. cbn [idle_world generators] in Hsteps.
    by rewrite lookup_empty in Hsteps.
Defined.

(** [update] end to end on three clusters.  With an index given as a
    list of names the first other cluster receives the four actions and
    the default cluster, whose answer is returned, none; with an index
    given by its name the first call already fails. *)
Example update_reaches_default_empty_handed :
  let run :=
    update translated_settings (dsl_default_index (IndexSeq ["articles"]))
      id article_extract accepting_bulk
      (article_doc (IndexSeq ["articles"]) None) (ManyModels [1; 2]) None
      "index" ∅ (idle_world (PK := nat) (Value := string)) in
  run.1 = Ok (0, "default")
  ∧ map call_summary (calls run.2)
    = [("replica", 4); ("archive", 0); ("default", 0)].
Proof. by vm_compute. Qed.

Example update_single_name_raises :
  let run :=
    update translated_settings (dsl_default_index (IndexName "articles"))
      id article_extract accepting_bulk
      (article_doc (IndexName "articles") None) (ManyModels [1; 2]) None
      "index" ∅ (idle_world (PK := nat) (Value := string)) in
  run.1 = Raise (UnboundLocalError "i")
  ∧ map call_summary (calls run.2) = [("replica", 0)].
Proof. by vm_compute. Qed.

(** * Further properties of documents.py and search.py *)

(** ** Index names *)

Lemma string_length_app (a b : string) :
  String.length (a +:+ b) = String.length a + String.length b.
Proof.
  induction a as [|c a IH]; [done|].
  change (S (String.length (a +:+ b)) = S (String.length a + String.length b)).
  by rewrite IH.
Qed.

Lemma string_app_cancel_r (a b tail : string) :
  a +:+ tail = b +:+ tail → a = b.
Proof.
  revert b. induction a as [|c a IH]; intros [|d b] Heq; try done.
  - change (tail = String d (b +:+ tail)) in Heq.
    apply (f_equal String.length) in Heq.
    cbn [String.length] in Heq. rewrite string_length_app in Heq. lia.
  - change (String c (a +:+ tail) = tail) in Heq.
    apply (f_equal String.length) in Heq.
    cbn [String.length] in Heq. rewrite string_length_app in Heq. lia.
  - change (String c (a +:+ tail) = String d (b +:+ tail)) in Heq.
    injection Heq as -> Heq. f_equal. by apply IH.
Qed.

Lemma custom_index_format_inj prefix language enabled suffix base1 base2 :
  custom_index_format prefix base1 language enabled suffix
  = custom_index_format prefix base2 language enabled suffix →
  base1 = base2.
Proof.
  unfold custom_index_format. intros Heq.
  apply (inj (String.app _)) in Heq.
  by apply string_app_cancel_r in Heq.
Qed.

(** X1. On the custom naming path (translation enabled, prefix and
    suffix non-empty) a list of names gives a list of the same length
    whose k-th element is the formatted k-th name. *)
Theorem index_names_keep_length_and_order
    (settings : Settings) (_default_index : pyindex → pyindex)
    (names : list string) (language : option string) :
  let enabled :=
    getattr (ELASTICSEARCH_DSL_TRANSLATION_ENABLED settings) false in
  let prefix := getattr (ES_INDEX_PREFIX settings) "" in
  let suffix := getattr (ES_INDEX_SUFFIX settings) "" in
  enabled && truthy prefix && truthy suffix = true →
  ∃ computed,
    get_custom_index_name settings _default_index (IndexSeq names) language
    = Ok (IndexSeq computed)
    ∧ length computed = length names
    ∧ ∀ k base,
        names !! k = Some base →
        computed !! k
        = Some (custom_index_format prefix base
                  (str_or language (LANGUAGE_ENGLISH settings)) enabled
                  suffix).
Proof.
  intros enabled prefix suffix Hgate.
  destruct (get_custom_index_name_seq settings _default_index names language)
    as [Hlength Hrun].
  fold enabled prefix suffix in Hlength, Hrun. rewrite Hgate in Hrun.
  eexists. split; [exact Hrun|]. split; [exact Hlength|].
  intros k base Hk. rewrite list_lookup_fmap, Hk. simpl.
  by rewrite custom_index_format_spec.
Qed.

Lemma index_names_keep_length_and_order_witness :
  ∃ computed,
    get_custom_index_name translated_settings
      (dsl_default_index (IndexName "articles"))
      (IndexSeq ["articles"; "authors"]) (Some "fr")
    = Ok (IndexSeq computed)
    ∧ length computed = 2
    ∧ computed !! 1 = Some "dev-authors-fr-v1".
Proof.
  destruct (index_names_keep_length_and_order translated_settings
              (dsl_default_index (IndexName "articles"))
              ["articles"; "authors"] (Some "fr") eq_refl)
    as (computed & Hrun & Hlength & Hat).
  exists computed. split; [exact Hrun|]. split; [exact Hlength|].
  by rewrite (Hat 1 "authors" eq_refl).
Defined.

(** X2. On the custom naming path distinct lists of names never get
    the same index names: the names can be read back from the result. *)
Theorem index_names_injective
    (settings : Settings) (_default_index : pyindex → pyindex)
    (names1 names2 : list string) (language : option string) :
  getattr (ELASTICSEARCH_DSL_TRANSLATION_ENABLED settings) false
  && truthy (getattr (ES_INDEX_PREFIX settings) "")
  && truthy (getattr (ES_INDEX_SUFFIX settings) "") = true →
  get_custom_index_name settings _default_index (IndexSeq names1) language
  = get_custom_index_name settings _default_index (IndexSeq names2) language →
  names1 = names2.
Proof.
  intros Hgate.
  destruct (get_custom_index_name_seq settings _default_index names1 language)
    as [_ ->].
  destruct (get_custom_index_name_seq settings _default_index names2 language)
    as [_ ->].
  rewrite Hgate. intros [= Heq].
  revert names2 Heq.
  induction names1 as [|n1 names1 IH]; intros [|n2 names2] Heq; try done.
  simpl in Heq. injection Heq as Hhead Htail.
  rewrite <- !custom_index_format_spec in Hhead.
  apply custom_index_format_inj in Hhead as ->.
  f_equal. by apply IH.
Qed.

Lemma index_names_injective_witness :
  get_custom_index_name translated_settings
    (dsl_default_index (IndexName "articles"))
    (IndexSeq ["articles"; "authors"]) (Some "fr")
  ≠ get_custom_index_name translated_settings
      (dsl_default_index (IndexName "articles"))
      (IndexSeq ["authors"; "articles"]) (Some "fr").
Proof.
  intros Hsame.
  by pose proof (index_names_injective translated_settings
                   (dsl_default_index (IndexName "articles"))
                   ["articles"; "authors"] ["authors"; "articles"]
                   (Some "fr") eq_refl Hsame).
Defined.

(** X3. A missing or empty language means the default language
    [LANGUAGE_ENGLISH]; and with translation disabled the language
    plays no part in the name at all. *)
Theorem index_name_language_fallback
    (settings : Settings) (_default_index : pyindex → pyindex)
    (i : pyindex) :
  get_custom_index_name settings _default_index i None
  = get_custom_index_name settings _default_index i
      (Some (LANGUAGE_ENGLISH settings))
  ∧ get_custom_index_name settings _default_index i (Some "")
    = get_custom_index_name settings _default_index i
        (Some (LANGUAGE_ENGLISH settings))
  ∧ (getattr (ELASTICSEARCH_DSL_TRANSLATION_ENABLED settings) false = false →
     ∀ language1 language2,
       get_custom_index_name settings _default_index i language1
       = get_custom_index_name settings _default_index i language2).
Proof.
  assert (str_or (Some (LANGUAGE_ENGLISH settings)) (LANGUAGE_ENGLISH settings)
          = LANGUAGE_ENGLISH settings) as Henglish.
  { simpl. by destruct (truthy _). }
  split; [|split].
  - unfold get_custom_index_name. by rewrite Henglish.
  - unfold get_custom_index_name. by rewrite Henglish.
  - intros Hdisabled language1 language2.
    unfold get_custom_index_name, custom_index_format. by rewrite Hdisabled.
Qed.

Lemma index_name_language_fallback_witness :
  get_custom_index_name base_settings (dsl_default_index (IndexName "a"))
    (IndexSeq ["articles"]) (Some "fr")
  = get_custom_index_name base_settings (dsl_default_index (IndexName "a"))
      (IndexSeq ["articles"]) (Some "de").
Proof.
  apply (proj2 (proj2 (index_name_language_fallback base_settings
                         (dsl_default_index (IndexName "a"))
                         (IndexSeq ["articles"])))).
  reflexivity.
Defined.

(** ** Actions and field preparation *)

Section MorePreparationFacts.

Context {Instance Value Related PK : Type}.

Variable settings : Settings.
Variable _default_index : pyindex → pyindex.
Variable pk : Instance → PK.
Variable get_value_from_instance :
  Field → Instance → option Related → Lang → result Value.

Local Abbreviation Doc := (DocType Instance Value Related).

(** X4. An action that [_prepare_action] returns carries the requested
    operation, the document type and the object's primary key, and its
    source is null exactly for the operation [delete]. *)
Theorem prepared_action_shape
    (self : Doc) (object_instance : Instance) (action : string)
    (language : option string) (fail_silently : bool) (active after : Lang)
    (prepared : Action PK Value) :
  _prepare_action settings _default_index pk get_value_from_instance self
    object_instance action language fail_silently active
  = (Ok prepared, after) →
  _op_type prepared = action
  ∧ _type prepared = _doc_type_name self
  ∧ _id prepared = pk object_instance
  ∧ (_source prepared = None ↔ action = "delete")
  ∧ Ok (_index prepared)
    = get_custom_index_name settings _default_index (_index_name self)
        language.
Proof.
  rewrite prepare_action_run. intros [= Hdict _]. unfold action_dict in Hdict.
  destruct (get_custom_index_name _ _ _ _) as [name|]; [|done].
  simpl in Hdict.
  destruct (String.eqb_spec action "delete") as [->|Hother]; simpl in Hdict.
  - by injection Hdict as <-.
  - destruct (prepare _ _ _ _ _ _) as [data|]; [|done].
    injection Hdict as <-. simpl. repeat split; try done.
Qed.

(** X5. A [delete] action needs no document: with the index given as a
    list of names it is built whatever the fields and hooks of the
    document are, with a null source. *)
Theorem delete_action_needs_no_preparation
    (self : Doc) (object_instance : Instance) (names : list string)
    (language : option string) (fail_silently : bool) (active : Lang) :
  _index_name self = IndexSeq names →
  ∃ name,
    get_custom_index_name settings _default_index (IndexSeq names) language
    = Ok name
    ∧ _prepare_action settings _default_index pk get_value_from_instance
        self object_instance "delete" language fail_silently active
      = (Ok {| _op_type := "delete";
               _index := name;
               _type := _doc_type_name self;
               _id := pk object_instance;
               _source := None |},
         active).
Proof.
  intros Hname. rewrite prepare_action_run. unfold action_dict.
  rewrite Hname.
  destruct (get_custom_index_name_seq settings _default_index names language)
    as [_ Hrun].
  rewrite Hrun. by eexists.
Qed.

Lemma prepare_loop_keys
    (self : Doc) (instance : Instance) (fail_silently : bool)
    (active : Lang) (fields : list (string * Field))
    (data0 data : gmap string Value) :
  prepare_loop settings get_value_from_instance self instance fail_silently
    fields data0 active = Ok data →
  ∀ name,
    is_Some (data !! name)
    ↔ is_Some (data0 !! name) ∨ name ∈ mapped_names fields.
Proof.
  revert data0. induction fields as [|[n field] fields IH];
    intros data0 Hrun name; simpl in Hrun.
  - injection Hrun as <-. unfold mapped_names. simpl.
    split; [by left|]. intros [?|Hin]; [done|]. by apply elem_of_nil in Hin.
  - unfold mapped_names. rewrite filter_cons. simpl.
    destruct (is_DEDField field) eqn:Hded; simpl in Hrun.
    + destruct (prepare_field _ _ _ _ _ n field active) as [value|];
        [|done].
      simpl in Hrun. rewrite (IH _ Hrun name).
      rewrite decide_True by done. rewrite fmap_cons, elem_of_cons. simpl.
      rewrite lookup_insert. case_decide as Hsame; subst.
      * split; [by intros _; right; left|]. intros _. left. by eexists.
      * split; [intros [?|?]; auto|].
        intros [?|[Heq|?]]; [by left | congruence | by right].
    + rewrite decide_False by done. by apply IH.
Qed.

(** X6. The dict [prepare] returns has exactly the mapped fields as
    keys: a field that is not a search field never appears in it. *)
Theorem prepare_keys_are_mapped_fields
    (self : Doc) (instance : Instance) (fail_silently : bool)
    (active : Lang) (data : gmap string Value) :
  prepare settings get_value_from_instance self instance fail_silently
    active = Ok data →
  ∀ name, is_Some (data !! name) ↔ name ∈ mapped_names (_fields self).
Proof.
  intros Hrun name. unfold prepare in Hrun.
  rewrite (prepare_loop_keys _ _ _ _ _ _ _ Hrun name), lookup_empty.
  split; [|by right]. intros [[? ?]|?]; done.
Qed.

Lemma prepare_loop_raises
    (self : Doc) (instance : Instance) (fail_silently : bool)
    (active : Lang) (before after : list (string * Field))
    (name : string) (field : Field) (e : exn) (data0 : gmap string Value) :
  Forall (λ nf, is_DEDField nf.2 = true →
                is_ok (prepare_field settings get_value_from_instance self
                         instance fail_silently nf.1 nf.2 active) = true)
    before →
  is_DEDField field = true →
  prepare_field settings get_value_from_instance self instance fail_silently
    name field active = Raise e →
  prepare_loop settings get_value_from_instance self instance fail_silently
    (before ++ (name, field) :: after) data0 active = Raise e.
Proof.
  intros Hbefore Hded Hraise. revert data0.
  induction Hbefore as [|[n f] before Hhead _ IH]; intros data0; simpl.
  - by rewrite Hded, Hraise.
  - simpl in Hhead. destruct (is_DEDField f); simpl; [|apply IH].
    destruct (prepare_field _ _ _ _ _ n f active); [apply IH|].
    by specialize (Hhead eq_refl).
Qed.

(** X7. [prepare] stops at the first mapped field, in the order of the
    fields, whose value cannot be resolved, and raises what its hook,
    the extractor or the translation raised; nothing is caught. *)
Theorem prepare_raises_first_failure
    (self : Doc) (instance : Instance) (fail_silently : bool)
    (active : Lang) (before after : list (string * Field))
    (name : string) (field : Field) (e : exn) :
  _fields self = before ++ (name, field) :: after →
  Forall (λ nf, is_DEDField nf.2 = true →
                is_ok (prepare_field settings get_value_from_instance self
                         instance fail_silently nf.1 nf.2 active) = true)
    before →
  is_DEDField field = true →
  prepare_field settings get_value_from_instance self instance fail_silently
    name field active = Raise e →
  prepare settings get_value_from_instance self instance fail_silently
    active = Raise e.
Proof.
  intros Hfields Hbefore Hded Hraise. unfold prepare. rewrite Hfields.
  by apply prepare_loop_raises.
Qed.

End MorePreparationFacts.

Lemma prepared_action_shape_witness :
  ∃ prepared,
    _prepare_action translated_settings
      (dsl_default_index (IndexSeq ["articles"])) id article_extract
      (article_doc (IndexSeq ["articles"]) None) 7 "index" (Some "fr") true
      None
    = (Ok prepared, None)
    ∧ _op_type prepared = "index"
    ∧ _id prepared = 7
    ∧ _source prepared ≠ None.
Proof.
  eexists. split; [by vm_compute|].
  destruct (prepared_action_shape translated_settings
              (dsl_default_index (IndexSeq ["articles"])) id article_extract
              (article_doc (IndexSeq ["articles"]) None) 7 "index"
              (Some "fr") true None None _ eq_refl)
    as (Hop & _ & Hid & Hsource & _).
  split; [exact Hop|]. split; [exact Hid|].
  intros Hnull. by apply Hsource in Hnull.
Defined.

Lemma delete_action_needs_no_preparation_witness :
  _prepare_action translated_settings
    (dsl_default_index (IndexSeq ["articles"])) id article_extract
    (failing_doc (IndexSeq ["articles"])) 7 "delete" (Some "fr") true None
  = (Ok {| _op_type := "delete";
           _index := IndexSeq ["dev-articles-fr-v1"];
           _type := "doc";
           _id := 7;
           _source := None |},
     None)
  ∧ (_prepare_action translated_settings
       (dsl_default_index (IndexSeq ["articles"])) id article_extract
       (failing_doc (IndexSeq ["articles"])) 7 "index" (Some "fr") true
       None).1
    = Raise (ExternalError "hook failed").
Proof.
  split; [|reflexivity].
  destruct (delete_action_needs_no_preparation translated_settings
              (dsl_default_index (IndexSeq ["articles"])) id article_extract
              (failing_doc (IndexSeq ["articles"])) 7 ["articles"]
              (Some "fr") true None eq_refl) as (name & Hname & Hrun).
  rewrite Hrun. by injection Hname as <-.
Defined.

Lemma prepare_keys_are_mapped_fields_witness :
  ∃ data,
    prepare translated_settings article_extract
      (article_doc (IndexSeq ["articles"]) None) 7 true (Some "fr") = Ok data
    ∧ is_Some (data !! "body") ∧ data !! "tags" = None.
Proof.
  eexists. split; [by vm_compute|].
  pose proof (prepare_keys_are_mapped_fields translated_settings
                article_extract (article_doc (IndexSeq ["articles"]) None)
                7 true (Some "fr") _ eq_refl) as Hkeys.
  split.
  - apply Hkeys. by vm_compute; repeat constructor.
  - apply eq_None_not_Some. intros Hsome. apply Hkeys in Hsome.
    vm_compute in Hsome.
    repeat (apply elem_of_cons in Hsome as [Hsome|Hsome]; [done|]).
    by apply elem_of_nil in Hsome.
Defined.

Lemma prepare_raises_first_failure_witness :
  prepare translated_settings article_extract broken_slug_doc 7 true
    (Some "fr")
  = Raise (ExternalError "no slug").
Proof.
  apply (prepare_raises_first_failure translated_settings article_extract
           broken_slug_doc 7 true (Some "fr")
           [("summary", {| is_DEDField := true; _path := [] |})]
           [("title", {| is_DEDField := true; _path := [] |});
            ("body", {| is_DEDField := true; _path := ["content"; "text"] |});
            ("tags", {| is_DEDField := false; _path := [] |})]
           "slug" {| is_DEDField := true; _path := [] |}).
  - reflexivity.
  - by repeat constructor.
  - reflexivity.
  - reflexivity.
Defined.

Section DocumentVariants.

Context {Instance Value Related PK : Type}.

Variable _default_index : pyindex → pyindex.
Variable pk : Instance → PK.
Variable get_value_from_instance :
  Field → Instance → option Related → Lang → result Value.

Local Abbreviation Doc := (DocType Instance Value Related).

(** The loop of [prepare] depends on the settings and the document
    only through the fields it visits and the value computed for each. *)
Lemma prepare_loop_ext
    (settings1 settings2 : Settings) (self1 self2 : Doc)
    (instance : Instance) (silently1 silently2 : bool) (active : Lang)
    (fields : list (string * Field)) (data : gmap string Value) :
  (∀ name field,
     prepare_field settings1 get_value_from_instance self1 instance
       silently1 name field active
     = prepare_field settings2 get_value_from_instance self2 instance
         silently2 name field active) →
  prepare_loop settings1 get_value_from_instance self1 instance silently1
    fields data active
  = prepare_loop settings2 get_value_from_instance self2 instance silently2
      fields data active.
Proof.
  intros Hfield. revert data.
  induction fields as [|[name field] fields IH]; intros data; simpl; [done|].
  destruct (is_DEDField field); simpl; [|apply IH].
  rewrite Hfield.
  destruct (prepare_field _ _ self2 _ _ name field active); simpl;
    [apply IH | done].
Qed.

(** X8. With translation disabled [prepare] never consults
    [translate_field]: overriding it changes nothing.  And for a
    document that keeps the base class's [translate_field], [prepare]
    gives the same dict whether translation is enabled or not, whatever
    else the settings say. *)
Theorem prepare_and_translation
    (settings : Settings) (self : Doc) (instance : Instance)
    (fail_silently : bool) (active : Lang) :
  (getattr (ELASTICSEARCH_DSL_TRANSLATION_ENABLED settings) false = false →
   ∀ translate,
     prepare settings get_value_from_instance
       (with_translate_field self translate) instance fail_silently active
     = prepare settings get_value_from_instance self instance fail_silently
         active)
  ∧ ((∀ name value silently lang,
        translate_field self name value silently lang = Ok value) →
     ∀ settings',
       prepare settings' get_value_from_instance self instance fail_silently
         active
       = prepare settings get_value_from_instance self instance
           fail_silently active).
Proof.
  split.
  - intros Hdisabled translate. unfold prepare. apply prepare_loop_ext.
    intros name field. unfold prepare_field. by rewrite Hdisabled.
  - intros Hidentity settings'. unfold prepare. apply prepare_loop_ext.
    intros name field. unfold prepare_field.
    destruct (match attribute self _ with Some _ => _ | None => _ end)
      as [value|]; simpl; [|done].
    destruct (getattr _ false), (getattr _ false);
      by rewrite ?Hidentity.
Qed.

Lemma action_dict_with_pagination
    (settings : Settings) (self : Doc) (pagination : option nat)
    (object_instance : Instance) (action : string)
    (language : option string) (silently : bool) (active : Lang) :
  action_dict settings _default_index pk get_value_from_instance
    (with_pagination self pagination) object_instance action language
    silently active
  = action_dict settings _default_index pk get_value_from_instance self
      object_instance action language silently active.
Proof.
  unfold action_dict. cbn [with_pagination _index_name _doc_type_name].
  unfold prepare. cbn [with_pagination _fields].
  by rewrite (prepare_loop_ext settings settings
                (with_pagination self pagination) self object_instance
                silently silently active).
Qed.

Lemma drain_ext (steps1 steps2 : list (L (Action PK Value))) (active : Lang) :
  Forall2 (λ step1 step2, ∀ lang, step1 lang = step2 lang) steps1 steps2 →
  drain steps1 active = drain steps2 active.
Proof.
  intros Hsteps. revert active.
  induction Hsteps as [|step1 step2 steps1 steps2 Hstep _ IH];
    intros active; simpl; [done|].
  rewrite Hstep. destruct (step2 active) as [[yielded|e] lang]; [|done].
  by rewrite IH.
Qed.

Lemma Forall2_flat_map {A B C} (R : B → C → Prop)
    (f : A → list B) (g : A → list C) (xs : list A) :
  (∀ x, Forall2 R (f x) (g x)) → Forall2 R (flat_map f xs) (flat_map g xs).
Proof.
  intros Hfg. induction xs as [|x xs IH]; simpl; [constructor|].
  by apply Forall2_app.
Qed.

Lemma Forall2_map_same {A B C} (R : B → C → Prop)
    (f : A → B) (g : A → C) (xs : list A) :
  (∀ x, R (f x) (g x)) → Forall2 R (map f xs) (map g xs).
Proof.
  intros Hfg. induction xs as [|x xs IH]; simpl; constructor; auto.
Qed.

(** X9. Pagination does not change what [_get_actions] yields: with
    any positive page size a consumer gets exactly the actions, in the
    order and with the outcome, that it gets without pagination. *)
Theorem pagination_keeps_actions
    (settings : Settings) (self : Doc) (object_list : list Instance)
    (action : string) (fail_silently : bool) (per_page : nat)
    (active : Lang) :
  0 < per_page →
  drain (_get_actions settings _default_index pk get_value_from_instance
           (with_pagination self (Some per_page)) object_list action
           fail_silently) active
  = drain (_get_actions settings _default_index pk get_value_from_instance
             (with_pagination self None) object_list action fail_silently)
      active.
Proof.
  intros Hpos.
  rewrite (get_actions_steps settings _default_index pk
             get_value_from_instance (with_pagination self (Some per_page)));
    [|by intros p [= <-]].
  rewrite (get_actions_steps settings _default_index pk
             get_value_from_instance (with_pagination self None));
    [|by intros p [=]].
  apply drain_ext.
  destruct (getattr _ false).
  - apply Forall2_flat_map. intros o. apply Forall2_map_same. intros l lang.
    by rewrite !prepare_action_run, !action_dict_with_pagination.
  - apply Forall2_map_same. intros o lang.
    by rewrite !prepare_action_run, !action_dict_with_pagination.
Qed.

(** X11. Nothing to index: on an empty object list [_get_actions]
    yields nothing and ends normally, with no pagination or any
    positive page size; with page size 0 it raises [ZeroDivisionError]
    before yielding anything, whatever the objects. *)
Theorem get_actions_of_nothing
    (settings : Settings) (self : Doc) (object_list : list Instance)
    (action : string) (fail_silently : bool) (active : Lang) :
  ((∀ per_page, queryset_pagination self = Some per_page → 0 < per_page) →
   drain (_get_actions settings _default_index pk get_value_from_instance
            self [] action fail_silently) active
   = ([], None, active))
  ∧ (queryset_pagination self = Some 0 →
     drain (_get_actions settings _default_index pk get_value_from_instance
              self object_list action fail_silently) active
     = ([], Some ZeroDivisionError, active)).
Proof.
  split.
  - intros Hpos. rewrite get_actions_steps by done.
    by destruct (getattr _ false).
  - intros Hzero. unfold _get_actions. rewrite Hzero.
    by destruct (getattr _ false).
Qed.

End DocumentVariants.

Lemma prepare_and_translation_witness :
  prepare base_settings article_extract
    (with_translate_field (article_doc (IndexSeq ["articles"]) None)
       (λ _ _ _ _, Raise (ExternalError "no translation")))
    7 true None
  = prepare base_settings article_extract
      (article_doc (IndexSeq ["articles"]) None) 7 true None
  ∧ prepare translated_settings article_extract
      (article_doc (IndexSeq ["articles"]) None) 7 true None
    = prepare base_settings article_extract
        (article_doc (IndexSeq ["articles"]) None) 7 true None.
Proof.
  destruct (prepare_and_translation article_extract base_settings
              (article_doc (IndexSeq ["articles"]) None) 7 true None)
    as [Hdisabled Hidentity].
  split.
  - by apply Hdisabled.
  - by apply Hidentity.
Defined.

Lemma pagination_keeps_actions_witness :
  (drain (_get_actions translated_settings
            (dsl_default_index (IndexSeq ["articles"])) id article_extract
            (with_pagination (article_doc (IndexSeq ["articles"]) None)
               (Some 2))
            [1; 2; 3; 4; 5] "index" true) None).1.1
  = (drain (_get_actions translated_settings
              (dsl_default_index (IndexSeq ["articles"])) id article_extract
              (with_pagination (article_doc (IndexSeq ["articles"]) None)
                 None)
              [1; 2; 3; 4; 5] "index" true) None).1.1
  ∧ map _id
      (drain (_get_actions translated_settings
                (dsl_default_index (IndexSeq ["articles"])) id
                article_extract
                (with_pagination (article_doc (IndexSeq ["articles"]) None)
                   (Some 2))
                [1; 2; 3; 4; 5] "index" true) None).1.1
    = [1; 1; 2; 2; 3; 3; 4; 4; 5; 5].
Proof.
  split; [|by vm_compute].
  rewrite (pagination_keeps_actions (dsl_default_index (IndexSeq ["articles"]))
             id article_extract translated_settings
             (article_doc (IndexSeq ["articles"]) None) [1; 2; 3; 4; 5]
             "index" true 2 None); [done | lia].
Defined.

Lemma get_actions_of_nothing_witness :
  drain (_get_actions translated_settings
           (dsl_default_index (IndexName "articles")) id article_extract
           (article_doc (IndexName "articles") (Some 500)) [] "index" true)
    (Some "de")
  = ([], None, Some "de")
  ∧ drain (_get_actions translated_settings
             (dsl_default_index (IndexSeq ["articles"])) id article_extract
             (article_doc (IndexSeq ["articles"]) (Some 0)) [1; 2] "index"
             true) (Some "de")
    = ([], Some ZeroDivisionError, Some "de").
Proof.
  split.
  - apply (proj1 (get_actions_of_nothing
                    (dsl_default_index (IndexName "articles")) id
                    article_extract translated_settings
                    (article_doc (IndexName "articles") (Some 500)) []
                    "index" true (Some "de"))).
    intros per_page [= <-]. lia.
  - apply (proj2 (get_actions_of_nothing
                    (dsl_default_index (IndexSeq ["articles"])) id
                    article_extract translated_settings
                    (article_doc (IndexSeq ["articles"]) (Some 0)) [1; 2]
                    "index" true (Some "de"))).
    reflexivity.
Defined.

(** ** Dispatch: failures, lists and keyword arguments *)

Section MoreDispatchFacts.

Context {Instance Value Related PK BulkResult SaveResult : Type}.

Variable settings : Settings.
Variable cluster_bulk :
  string → list (Action PK Value) → gmap string kwval → result BulkResult.
Variable cluster_save : string → gmap string kwval → result SaveResult.
Variable cluster_delete : string → gmap string kwval → result unit.

Local Abbreviation Doc := (DocType Instance Value Related).
Local Abbreviation W := (World PK Value).

Lemma bind_raise {A B} (m : M (PK := PK) (Value := Value) A)
    (k : A → M B) (w w' : W) (e : exn) :
  m w = (Raise e, w') → bind m k w = (Raise e, w').
Proof. intros Hm. unfold bind. by rewrite Hm. Qed.

(** A loop whose body succeeds on [before] and raises on the next
    element ends there. *)
Lemma for_each_aborts {A} (body : A → M (PK := PK) (Value := Value) unit)
    (before after : list A) (x : A) (w w1 w2 : W) (e : exn) :
  for_each before body w = (Ok tt, w1) →
  body x w1 = (Raise e, w2) →
  for_each (before ++ x :: after) body w = (Raise e, w2).
Proof.
  revert w. induction before as [|y before IH]; intros w Hbefore Hx.
  - simpl in Hbefore. injection Hbefore as <-. simpl.
    by apply bind_raise.
  - simpl in *. unfold bind in *.
    destruct (body y w) as [[[]|e'] w']; [by apply IH | done].
Qed.

Lemma helpers_bulk_raise client (actions : actions_arg PK Value) kwargs
    (w w1 : W) items e :
  consume actions w = (items, Some e, w1) →
  helpers_bulk cluster_bulk client actions kwargs w
  = (Raise e, set_calls w1 (calls w1 ++ [BulkCall client items])).
Proof. intros Hconsume. unfold helpers_bulk. by rewrite Hconsume. Qed.

Lemma bulk_list_loop (self : Doc) items kwargs (aliases : list string)
    (w : W) :
  Forall (λ alias, is_ok (cluster_bulk alias items kwargs) = true) aliases →
  for_each aliases
    (λ alias,
       bind (helpers_bulk cluster_bulk (_get_connection self (Some alias))
               (ActionList items) kwargs) (λ _, ret tt)) w
  = (Ok tt,
     set_calls w (calls w ++ map (λ alias, BulkCall alias items) aliases)).
Proof.
  intros Hok. revert w.
  induction Hok as [|alias aliases Haccept _ IH]; intros w.
  - simpl. rewrite app_nil_r. by destruct w.
  - cbn [for_each map].
    destruct (cluster_bulk alias items kwargs) as [answer|] eqn:Hanswer;
      [|done].
    erewrite bind_ok; cycle 1.
    { erewrite bind_ok; [reflexivity|].
      rewrite get_connection_alias.
      rewrite (helpers_bulk_run cluster_bulk alias (ActionList items) kwargs
                 w w items eq_refl).
      by rewrite Hanswer. }
    rewrite IH. cbn [calls set_calls]. rewrite set_calls_set_calls.
    by rewrite <- app_assoc.
Qed.

(** X12. Given a list, [bulk] sends every cluster the whole list: the
    other clusters in configuration order, then the document's own
    connection, whose answer it returns. *)
Theorem bulk_gives_every_cluster_the_list
    (self : Doc) (items : list (Action PK Value))
    (kwargs : gmap string kwval) (w : W) :
  (∀ client received, is_ok (cluster_bulk client received kwargs) = true) →
  bulk settings cluster_bulk self (ActionList items) kwargs w
  = (cluster_bulk (_index_using self) items kwargs,
     set_calls w
       (calls w ++
        map (λ alias, BulkCall alias items)
          (others (ELASTICSEARCH_DSL settings) ++ [_index_using self]))).
Proof.
  intros Hok.
  rewrite (bulk_run settings cluster_bulk self (ActionList items) kwargs
             w w items eq_refl Hok).
  by destruct (others (ELASTICSEARCH_DSL settings)).
Qed.

(** X13. [bulk] catches nothing: when one of the other clusters
    refuses the request, [bulk] raises that cluster's exception, and
    neither the clusters after it nor the default connection are
    called. *)
Theorem bulk_stops_at_failing_cluster
    (self : Doc) (items : list (Action PK Value))
    (kwargs : gmap string kwval) (w : W)
    (before after : list string) (failing : string) (e : exn) :
  others (ELASTICSEARCH_DSL settings) = before ++ failing :: after →
  Forall (λ alias, is_ok (cluster_bulk alias items kwargs) = true) before →
  cluster_bulk failing items kwargs = Raise e →
  bulk settings cluster_bulk self (ActionList items) kwargs w
  = (Raise e,
     set_calls w
       (calls w ++ map (λ alias, BulkCall alias items) (before ++ [failing]))).
Proof.
  intros Hothers Hbefore Hfailing. unfold bulk.
  apply bind_raise.
  rewrite (for_each_guarded
             (λ alias,
                bind (helpers_bulk cluster_bulk
                        (_get_connection self (Some alias))
                        (ActionList items) kwargs)
                  (λ _, ret tt))).
  rewrite Hothers.
  eapply for_each_aborts; [by apply bulk_list_loop|].
  apply bind_raise. rewrite get_connection_alias.
  rewrite (helpers_bulk_run cluster_bulk failing (ActionList items) kwargs
             _ _ items eq_refl).
  rewrite Hfailing. cbn [calls set_calls].
  by rewrite set_calls_set_calls, map_app, <- app_assoc.
Qed.

Lemma save_partial_loop (self : Doc) kwargs (aliases : list string) (w : W) :
  Forall (λ alias, is_ok (cluster_save alias kwargs) = true) aliases →
  for_each aliases
    (λ alias, bind (super_save cluster_save self (Some alias) kwargs)
                (λ _, ret tt)) w
  = (Ok tt, set_calls w (calls w ++ map SaveCall aliases)).
Proof.
  intros Hok. revert w.
  induction Hok as [|alias aliases Haccept _ IH]; intros w.
  - simpl. rewrite app_nil_r. by destruct w.
  - cbn [for_each map].
    destruct (cluster_save alias kwargs) as [answer|] eqn:Hanswer; [|done].
    erewrite bind_ok; cycle 1.
    { erewrite bind_ok; [reflexivity|].
      rewrite super_save_run, get_connection_alias. by rewrite Hanswer. }
    rewrite IH. cbn [calls set_calls]. rewrite set_calls_set_calls.
    by rewrite <- app_assoc.
Qed.

(** X14. [save] catches nothing either: the first other cluster that
    refuses ends the operation with its exception, and the default
    connection is never asked to save. *)
Theorem save_stops_at_failing_cluster
    (self : Doc) (kwargs : gmap string kwval) (w : W)
    (before after : list string) (failing : string) (e : exn) :
  others (ELASTICSEARCH_DSL settings) = before ++ failing :: after →
  Forall (λ alias, is_ok (cluster_save alias kwargs) = true) before →
  cluster_save failing kwargs = Raise e →
  save settings cluster_save self kwargs w
  = (Raise e,
     set_calls w (calls w ++ map SaveCall (before ++ [failing]))).
Proof.
  intros Hothers Hbefore Hfailing. unfold save.
  apply bind_raise.
  rewrite (for_each_guarded
             (λ alias,
                bind (super_save cluster_save self (Some alias) kwargs)
                  (λ _, ret tt))).
  rewrite Hothers.
  eapply for_each_aborts; [by apply save_partial_loop|].
  apply bind_raise. rewrite super_save_run, get_connection_alias.
  rewrite Hfailing. cbn [calls set_calls].
  by rewrite set_calls_set_calls, map_app, <- app_assoc.
Qed.

Lemma delete_partial_loop (self : Doc) kwargs (aliases : list string)
    (w : W) :
  Forall (λ alias, is_ok (cluster_delete alias kwargs) = true) aliases →
  for_each aliases
    (λ alias, super_delete cluster_delete self (Some alias) kwargs) w
  = (Ok tt, set_calls w (calls w ++ map DeleteCall aliases)).
Proof.
  intros Hok. revert w.
  induction Hok as [|alias aliases Haccept _ IH]; intros w.
  - simpl. rewrite app_nil_r. by destruct w.
  - cbn [for_each map].
    destruct (cluster_delete alias kwargs) as [[]|] eqn:Hanswer; [|done].
    erewrite bind_ok; cycle 1.
    { rewrite super_delete_run, get_connection_alias. by rewrite Hanswer. }
    rewrite IH. cbn [calls set_calls]. rewrite set_calls_set_calls.
    by rewrite <- app_assoc.
Qed.

(** X15. [delete] stops at the first configured cluster that refuses:
    the document stays on every cluster configured after it, the
    default one included when it comes later. *)
Theorem delete_stops_at_failing_cluster
    (self : Doc) (kwargs : gmap string kwval) (w : W)
    (before after : list string) (failing : string) (e : exn) :
  ELASTICSEARCH_DSL settings = before ++ failing :: after →
  Forall (λ alias, is_ok (cluster_delete alias kwargs) = true) before →
  cluster_delete failing kwargs = Raise e →
  delete settings cluster_delete self kwargs w
  = (Raise e,
     set_calls w (calls w ++ map DeleteCall (before ++ [failing]))).
Proof.
  intros Hkeys Hbefore Hfailing. unfold delete. rewrite Hkeys.
  eapply for_each_aborts; [by apply delete_partial_loop|].
  rewrite super_delete_run, get_connection_alias.
  rewrite Hfailing. cbn [calls set_calls].
  by rewrite set_calls_set_calls, map_app, <- app_assoc.
Qed.

(** X16. When the generator given to [bulk] raises, and the first
    cluster called (the first other cluster, or the document's own
    connection when there is none) accepts what it is sent, the call
    made for that cluster has pulled the actions yielded until then,
    [bulk] raises the generator's exception, no other cluster is
    called, and the generator is left exhausted. *)
Theorem bulk_stops_when_generator_raises
    (self : Doc) (ref : nat) (steps : list (L (Action PK Value)))
    (kwargs : gmap string kwval) (w : W) items (e : exn) (active : Lang) :
  generators w !! ref = Some steps →
  drain steps (language w) = (items, Some e, active) →
  (∀ received kw,
     is_ok (cluster_bulk
              (default (_index_using self)
                 (head (others (ELASTICSEARCH_DSL settings))))
              received kw) = true) →
  bulk settings cluster_bulk self (ActionIter ref) kwargs w
  = (Raise e,
     {| language := active;
        generators := <[ref := []]> (generators w);
        calls :=
          calls w ++
          [BulkCall
             (default (_index_using self)
                (head (others (ELASTICSEARCH_DSL settings))))
             items] |}).
Proof.
  intros Hgen Hdrain _.
  assert (consume (ActionIter ref) w
          = (items, Some e,
             {| language := active;
                generators := <[ref := []]> (generators w);
                calls := calls w |})) as Hconsume.
  { simpl. rewrite Hgen. simpl. by rewrite Hdrain. }
  unfold bulk.
  destruct (others (ELASTICSEARCH_DSL settings)) as [|first rest] eqn:Hothers.
  - erewrite bind_ok; cycle 1.
    { rewrite (for_each_guarded
                 (λ alias,
                    bind (helpers_bulk cluster_bulk
                            (_get_connection self (Some alias))
                            (ActionIter ref) kwargs)
                      (λ _, ret tt))).
      by rewrite Hothers. }
    rewrite get_connection_own.
    by rewrite (helpers_bulk_raise _ _ _ _ _ _ _ Hconsume).
  - apply bind_raise.
    rewrite (for_each_guarded
               (λ alias,
                  bind (helpers_bulk cluster_bulk
                          (_get_connection self (Some alias))
                          (ActionIter ref) kwargs)
                    (λ _, ret tt))).
    rewrite Hothers. cbn [for_each]. apply bind_raise, bind_raise.
    rewrite get_connection_alias.
    by rewrite (helpers_bulk_raise _ _ _ _ _ _ _ Hconsume).
Qed.

End MoreDispatchFacts.

Lemma bulk_gives_every_cluster_the_list_witness :
  let run :=
    bulk translated_settings accepting_bulk
      (article_doc (IndexSeq ["articles"]) None)
      (ActionList (drain pending_actions None).1.1) ∅
      (idle_world (PK := nat) (Value := string)) in
  run.1 = Ok (4, "default")
  ∧ map call_summary (calls run.2)
    = [("replica", 4); ("archive", 4); ("default", 4)].
Proof.
  intros run. subst run.
  rewrite (bulk_gives_every_cluster_the_list translated_settings
             accepting_bulk (article_doc (IndexSeq ["articles"]) None)
             (drain pending_actions None).1.1 ∅ idle_world);
    [by vm_compute | by intros client received].
Defined.

Lemma bulk_stops_at_failing_cluster_witness :
  let run :=
    bulk translated_settings (refusing_bulk "archive")
      (article_doc (IndexSeq ["articles"]) None)
      (ActionList (drain pending_actions None).1.1) ∅
      (idle_world (PK := nat) (Value := string)) in
  run.1 = Raise (ExternalError "connection refused")
  ∧ map call_summary (calls run.2) = [("replica", 4); ("archive", 4)].
Proof.
  intros run. subst run.
  rewrite (bulk_stops_at_failing_cluster translated_settings
             (refusing_bulk "archive")
             (article_doc (IndexSeq ["articles"]) None)
             (drain pending_actions None).1.1 ∅ idle_world
             ["replica"] [] "archive" (ExternalError "connection refused"));
    [by vm_compute | by vm_compute | by repeat constructor | reflexivity].
Defined.

Lemma save_stops_at_failing_cluster_witness :
  let run :=
    save translated_settings (refusing_save "replica")
      (article_doc (IndexSeq ["articles"]) None) ∅
      (idle_world (PK := nat) (Value := string)) in
  run.1 = Raise (ExternalError "connection refused")
  ∧ map call_alias (calls run.2) = ["replica"].
Proof.
  intros run. subst run.
  rewrite (save_stops_at_failing_cluster translated_settings
             (refusing_save "replica")
             (article_doc (IndexSeq ["articles"]) None) ∅ idle_world
             [] ["archive"] "replica" (ExternalError "connection refused"));
    [by vm_compute | by vm_compute | by constructor | reflexivity].
Defined.

Lemma delete_stops_at_failing_cluster_witness :
  let run :=
    delete translated_settings (refusing_delete "replica")
      (article_doc (IndexSeq ["articles"]) None) ∅
      (idle_world (PK := nat) (Value := string)) in
  run.1 = Raise (ExternalError "connection refused")
  ∧ map call_alias (calls run.2) = ["replica"].
Proof.
  intros run. subst run.
  rewrite (delete_stops_at_failing_cluster translated_settings
             (refusing_delete "replica")
             (article_doc (IndexSeq ["articles"]) None) ∅ idle_world
             [] ["default"; "archive"] "replica"
             (ExternalError "connection refused"));
    [by vm_compute | by vm_compute | by constructor | reflexivity].
Defined.

Lemma bulk_stops_when_generator_raises_witness :
  let run :=
    bulk translated_settings accepting_bulk
      (article_doc (IndexSeq ["articles"]) None) (ActionIter 0) ∅
      interrupted_world in
  run.1 = Raise (ExternalError "row vanished")
  ∧ map call_summary (calls run.2) = [("replica", 4)]
  ∧ generators run.2 !! 0 = Some [].
Proof.
  intros run. subst run.
  rewrite (bulk_stops_when_generator_raises translated_settings
             accepting_bulk (article_doc (IndexSeq ["articles"]) None) 0
             (pending_actions
              ++ [raising_step (ExternalError "row vanished")]) ∅
             interrupted_world (drain pending_actions None).1.1
             (ExternalError "row vanished") None);
    [by vm_compute | by vm_compute | by vm_compute | by intros].
Defined.

(** ** [update] *)

Section MoreUpdateFacts.

Context {Instance Value Related PK BulkResult : Type}.

Variable settings : Settings.
Variable _default_index : pyindex → pyindex.
Variable pk : Instance → PK.
Variable get_value_from_instance :
  Field → Instance → option Related → Lang → result Value.
Variable cluster_bulk :
  string → list (Action PK Value) → gmap string kwval → result BulkResult.

Local Abbreviation Doc := (DocType Instance Value Related).
Local Abbreviation W := (World PK Value).
Local Abbreviation run_update :=
  (update settings _default_index pk get_value_from_instance cluster_bulk).

(** What [update] hands to [bulk] when the caller passed neither
    [chunk_size] nor [max_chunk_bytes]. *)
Lemma update_as_bulk (self : Doc) (thing : thing_arg) (refresh : option bool)
    (action : string) (kwargs : gmap string kwval) (w : W) :
  kwargs !! "chunk_size" = None →
  kwargs !! "max_chunk_bytes" = None →
  let refreshed :=
    match refresh with
    | Some true => <["refresh" := KwBool true]>
                     (base.delete "fail_silently" kwargs)
    | Some false => base.delete "fail_silently" kwargs
    | None =>
        if auto_refresh self
        then <["refresh" := KwBool true]>
               (base.delete "fail_silently" kwargs)
        else base.delete "fail_silently" kwargs
    end in
  run_update self thing refresh action kwargs w
  = bulk settings cluster_bulk self
      (ActionIter (fresh (dom (generators w))))
      (<["chunk_size" :=
           KwNum (getattr (ELASTICSEARCH_DSL_CHUNK_SIZE settings) 500%N)]>
         (<["max_chunk_bytes" :=
              KwNum (getattr (ELASTICSEARCH_DSL_CHUNK_BYTES settings)
                       (100 * 1024 * 1024)%N)]> refreshed))
      {| language := language w;
         generators :=
           <[fresh (dom (generators w)) :=
               _get_actions settings _default_index pk
                 get_value_from_instance self
                 match thing with
                 | OneModel instance => [instance]
                 | ManyModels instances => instances
                 end action
                 (from_option kw_truth true (kwargs !! "fail_silently"))]>
             (generators w);
         calls := calls w |}.
Proof.
  intros Hsize Hbytes refreshed. unfold update.
  erewrite bind_ok; [|reflexivity]. fold refreshed.
  assert (refreshed !! "chunk_size" = None
          ∧ refreshed !! "max_chunk_bytes" = None) as [-> ->]; [|done].
  unfold refreshed.
  destruct refresh as [[]|]; [| |destruct (auto_refresh self)];
    rewrite ?lookup_insert_ne, ?lookup_delete_ne by done; done.
Qed.

(** X17. What [update] hands on: a generator over the objects (a single
    model as a list of one), with [fail_silently] true unless the
    caller said otherwise, and as keywords never [fail_silently]; always [chunk_size] and [max_chunk_bytes], from the
    settings or 500 and 100 MiB; [refresh=True] when asked for or when
    the document refreshes automatically and the caller said nothing;
    every other keyword as the caller gave it. *)
Theorem update_forwards_kwargs
    (self : Doc) (thing : thing_arg) (refresh : option bool)
    (action : string) (kwargs : gmap string kwval) (w : W) :
  kwargs !! "chunk_size" = None →
  kwargs !! "max_chunk_bytes" = None →
  ∃ forwarded ref w',
    run_update self thing refresh action kwargs w
    = bulk settings cluster_bulk self (ActionIter ref) forwarded w'
    ∧ generators w' !! ref
      = Some (_get_actions settings _default_index pk
                get_value_from_instance self
                match thing with
                | OneModel instance => [instance]
                | ManyModels instances => instances
                end action
                (from_option kw_truth true (kwargs !! "fail_silently")))
    ∧ calls w' = calls w
    ∧ forwarded !! "fail_silently" = None
    ∧ forwarded !! "chunk_size"
      = Some (KwNum (getattr (ELASTICSEARCH_DSL_CHUNK_SIZE settings) 500%N))
    ∧ forwarded !! "max_chunk_bytes"
      = Some (KwNum (getattr (ELASTICSEARCH_DSL_CHUNK_BYTES settings)
                       104857600%N))
    ∧ forwarded !! "refresh"
      = (if match refresh with
             | Some asked => asked
             | None => auto_refresh self
             end
         then Some (KwBool true) else kwargs !! "refresh")
    ∧ ∀ key,
        key ≠ "fail_silently" → key ≠ "chunk_size" →
        key ≠ "max_chunk_bytes" → key ≠ "refresh" →
        forwarded !! key = kwargs !! key.
Proof.
  intros Hsize Hbytes.
  do 3 eexists. split; [by apply update_as_bulk|].
  split; [by cbn [generators]; rewrite lookup_insert_eq|].
  split; [done|].
  destruct refresh as [[]|]; [| |destruct (auto_refresh self)];
    repeat split;
    rewrite ?lookup_insert_eq, ?lookup_insert_ne, ?lookup_insert_eq,
      ?lookup_delete_eq, ?lookup_delete_ne by done; try done;
    intros key ????;
    by rewrite ?lookup_insert_ne, ?lookup_delete_ne by done.
Qed.

(** X18. The chunk limits cannot be overridden per call: an [update]
    given [chunk_size] or [max_chunk_bytes] raises [TypeError], and no
    cluster is contacted. *)
Theorem update_rejects_chunk_keywords
    (self : Doc) (thing : thing_arg) (refresh : option bool)
    (action : string) (kwargs : gmap string kwval) (w : W) :
  is_Some (kwargs !! "chunk_size") ∨ is_Some (kwargs !! "max_chunk_bytes") →
  ∃ message w',
    run_update self thing refresh action kwargs w
    = (Raise (TypeError message), w')
    ∧ calls w' = calls w
    ∧ language w' = language w.
Proof.
  intros Hgiven. unfold update.
  erewrite bind_ok; [|reflexivity].
  set (refreshed := match refresh with Some true => _ | _ => _ end).
  assert (refreshed !! "chunk_size" = kwargs !! "chunk_size"
          ∧ refreshed !! "max_chunk_bytes" = kwargs !! "max_chunk_bytes")
    as [-> ->].
  { unfold refreshed.
    destruct refresh as [[]|]; [| |destruct (auto_refresh self)];
      by rewrite ?lookup_insert_ne, ?lookup_delete_ne by done. }
  destruct (kwargs !! "chunk_size") as [size|],
    (kwargs !! "max_chunk_bytes") as [bytes|];
    try (by do 2 eexists).
  by destruct Hgiven as [[? ?]|[? ?]].
Qed.

(** X19. An [update] with nothing to index still contacts every
    cluster, each with an empty request, and returns the answer of the
    document's own connection, however the index is named. *)
Theorem update_of_nothing
    (self : Doc) (refresh : option bool) (action : string)
    (kwargs : gmap string kwval) (w : W) :
  kwargs !! "chunk_size" = None →
  kwargs !! "max_chunk_bytes" = None →
  (∀ per_page, queryset_pagination self = Some per_page → 0 < per_page) →
  (∀ client received kw, is_ok (cluster_bulk client received kw) = true) →
  ∃ forwarded w',
    run_update self (ManyModels []) refresh action kwargs w
    = (cluster_bulk (_index_using self) [] forwarded, w')
    ∧ calls w'
      = calls w ++
        map (λ alias, BulkCall alias [])
          (others (ELASTICSEARCH_DSL settings) ++ [_index_using self])
    ∧ language w' = language w.
Proof.
  intros Hsize Hbytes Hpos Hok.
  rewrite update_as_bulk by done. cbv zeta.
  assert (∀ silently,
            _get_actions settings _default_index pk get_value_from_instance
              self [] action silently = []) as ->.
  { intros silently. rewrite get_actions_steps by done.
    by destruct (getattr _ false). }
  erewrite bulk_run; cycle 1.
  { simpl. rewrite lookup_insert_eq. reflexivity. }
  { intros client received. apply Hok. }
  destruct (others (ELASTICSEARCH_DSL settings)) as [|first rest];
    do 2 eexists; (split; [reflexivity|]); by split.
Qed.

(** X20. With translation disabled [fail_silently] is without effect:
    an [update] called with it, whatever its value, does exactly what
    the same [update] does without it. *)
Theorem update_ignores_fail_silently_without_translation
    (self : Doc) (thing : thing_arg) (refresh : option bool)
    (action : string) (kwargs : gmap string kwval) (value : kwval) (w : W) :
  getattr (ELASTICSEARCH_DSL_TRANSLATION_ENABLED settings) false = false →
  kwargs !! "fail_silently" = None →
  run_update self thing refresh action (<["fail_silently" := value]> kwargs) w
  = run_update self thing refresh action kwargs w.
Proof.
  intros Hdisabled Hfresh. unfold update.
  rewrite delete_insert_id by done. rewrite (delete_id kwargs) by done.
  unfold _get_actions. by rewrite Hdisabled.
Qed.

End MoreUpdateFacts.

Lemma update_forwards_kwargs_witness :
  ∃ forwarded ref w',
    update translated_settings (dsl_default_index (IndexSeq ["articles"]))
      id article_extract accepting_bulk
      (article_doc (IndexSeq ["articles"]) None) (OneModel 7) (Some true)
      "index"
      {[ "fail_silently" := KwBool false; "routing" := KwStr "eu" ]}
      (idle_world (PK := nat) (Value := string))
    = bulk translated_settings accepting_bulk
        (article_doc (IndexSeq ["articles"]) None) (ActionIter ref)
        forwarded w'
    ∧ forwarded !! "fail_silently" = None
    ∧ forwarded !! "chunk_size" = Some (KwNum 500)
    ∧ forwarded !! "max_chunk_bytes" = Some (KwNum 104857600)
    ∧ forwarded !! "refresh" = Some (KwBool true)
    ∧ forwarded !! "routing" = Some (KwStr "eu").
Proof.
  destruct (update_forwards_kwargs translated_settings
              (dsl_default_index (IndexSeq ["articles"])) id article_extract
              accepting_bulk (article_doc (IndexSeq ["articles"]) None)
              (OneModel 7) (Some true) "index"
              {[ "fail_silently" := KwBool false; "routing" := KwStr "eu" ]}
              idle_world)
    as (forwarded & ref & w' & Hrun & _ & _ & Hsilent & Hsize & Hbytes
        & Hrefresh & Hother).
  - by vm_compute.
  - by vm_compute.
  - exists forwarded, ref, w'.
    split; [exact Hrun|]. split; [exact Hsilent|].
    split; [exact Hsize|]. split; [exact Hbytes|].
    split; [exact Hrefresh|].
    rewrite Hother by done. by vm_compute.
Defined.

Lemma update_rejects_chunk_keywords_witness :
  ∃ message w',
    update translated_settings (dsl_default_index (IndexSeq ["articles"]))
      id article_extract accepting_bulk
      (article_doc (IndexSeq ["articles"]) None) (ManyModels [1; 2]) None
      "index" {[ "chunk_size" := KwNum 50 ]}
      (idle_world (PK := nat) (Value := string))
    = (Raise (TypeError message), w')
    ∧ calls w' = [].
Proof.
  destruct (update_rejects_chunk_keywords translated_settings
              (dsl_default_index (IndexSeq ["articles"])) id article_extract
              accepting_bulk (article_doc (IndexSeq ["articles"]) None)
              (ManyModels [1; 2]) None "index"
              {[ "chunk_size" := KwNum 50 ]} idle_world)
    as (message & w' & Hrun & Hcalls & _).
  - left. by eexists.
  - by exists message, w'.
Defined.

Lemma update_of_nothing_witness :
  ∃ w',
    update translated_settings (dsl_default_index (IndexName "articles"))
      id article_extract accepting_bulk
      (article_doc (IndexName "articles") (Some 500)) (ManyModels []) None
      "index" ∅ (idle_world (PK := nat) (Value := string))
    = (Ok (0, "default"), w')
    ∧ map call_summary (calls w')
      = [("replica", 0); ("archive", 0); ("default", 0)].
Proof.
  destruct (update_of_nothing translated_settings
              (dsl_default_index (IndexName "articles")) id article_extract
              accepting_bulk (article_doc (IndexName "articles") (Some 500))
              None "index" ∅ idle_world)
    as (forwarded & w' & Hrun & Hcalls & _).
  - done.
  - done.
  - intros per_page [= <-]. lia.
  - done.
  - exists w'. split; [exact Hrun|].
    rewrite Hcalls. by vm_compute.
Defined.

Lemma update_ignores_fail_silently_without_translation_witness :
  update base_settings (dsl_default_index (IndexSeq ["articles"]))
    id article_extract accepting_bulk
    (article_doc (IndexSeq ["articles"]) None) (ManyModels [1; 2]) None
    "index" {[ "fail_silently" := KwBool false ]}
    (idle_world (PK := nat) (Value := string))
  = update base_settings (dsl_default_index (IndexSeq ["articles"]))
      id article_extract accepting_bulk
      (article_doc (IndexSeq ["articles"]) None) (ManyModels [1; 2]) None
      "index" ∅ (idle_world (PK := nat) (Value := string)).
Proof.
  by apply (update_ignores_fail_silently_without_translation base_settings
              (dsl_default_index (IndexSeq ["articles"])) id article_extract
              accepting_bulk (article_doc (IndexSeq ["articles"]) None)
              (ManyModels [1; 2]) None "index" ∅ (KwBool false) idle_world).
Defined.

(** ** Searches *)

Section MoreMaterializerFacts.

Context {PK Request Model Row : Type} `{EqDecision PK}.

Variable es_search : search.Search PK Request Model → list (search.Hit PK).
Variable row_pk : Row → PK.

Local Abbreviation Srch := (search.Search PK Request Model).

Lemma elem_of_first_occurrences (ids : list PK) (pk : PK) :
  pk ∈ first_occurrences ids ↔ pk ∈ ids.
Proof.
  induction ids as [|id ids IH]; [done|].
  cbn [first_occurrences]. rewrite !elem_of_cons, list_elem_of_filter, IH.
  destruct (decide (pk = id)); tauto.
Qed.

Lemma NoDup_first_occurrences (ids : list PK) :
  NoDup (first_occurrences ids).
Proof.
  induction ids as [|id ids IH]; cbn [first_occurrences]; constructor.
  - rewrite list_elem_of_filter. by intros [? _].
  - by apply NoDup_filter.
Qed.

(** Hits with distinct identifiers are their own first occurrences. *)
Lemma first_occurrences_NoDup (ids : list PK) :
  NoDup ids → first_occurrences ids = ids.
Proof.
  induction 1 as [|id ids Hid _ IH]; [done|].
  cbn [first_occurrences]. rewrite IH. f_equal.
  clear IH. induction ids as [|x ids IH]; [done|].
  apply not_elem_of_cons in Hid as [Hne Hid].
  rewrite filter_cons, decide_True by done. f_equal. by apply IH.
Qed.

Lemma StronglySorted_agree {A} (R R' : relation A) (l : list A) :
  (∀ x y, x ∈ l → y ∈ l → R x y → R' x y) →
  StronglySorted R l → StronglySorted R' l.
Proof.
  intros Hagree Hsorted.
  induction Hsorted as [|a l Hsorted IH Hhead]; constructor.
  - apply IH. intros x y Hx Hy. apply Hagree; by right.
  - apply Forall_forall. intros y Hy.
    apply Hagree; [by left | by right |].
    by eapply Forall_forall in Hhead.
Qed.

(** Along the first occurrences the [CASE] expression built from the
    identifiers grows: a repeated identifier is matched by its first
    clause. *)
Lemma first_occurrences_by_position (ids : list PK) (pos : nat) :
  StronglySorted
    (λ a b,
       search.key_le (search.case_value (search.whens_from pos ids) a)
         (search.case_value (search.whens_from pos ids) b))
    (first_occurrences ids).
Proof.
  revert pos. induction ids as [|id ids IH]; intros pos;
    cbn [first_occurrences]; constructor.
  - eapply StronglySorted_agree;
      [|apply StronglySorted_filter, (IH (S pos))].
    intros x y [Hx _]%list_elem_of_filter [Hy _]%list_elem_of_filter.
    cbn [search.whens_from search.case_value search.when_pk].
    by rewrite !decide_False by done.
  - apply Forall_forall. intros y [Hy Hin]%list_elem_of_filter.
    rewrite elem_of_first_occurrences in Hin.
    cbn [search.whens_from search.case_value search.when_pk search.then_].
    rewrite decide_True, decide_False by done.
    destruct (case_value_elem ids (S pos) y Hin) as [value Hvalue].
    rewrite Hvalue.
    apply case_value_lookup in Hvalue as (i & -> & _). simpl. lia.
Qed.

(** One clause per identifier, in their order. *)
Lemma whens_from_pks (ids : list PK) (pos : nat) :
  map search.when_pk (search.whens_from pos ids) = ids.
Proof.
  revert pos. induction ids as [|id ids IH]; intros pos; [done|].
  cbn [search.whens_from map search.when_pk]. by rewrite IH.
Qed.

(** Rows with distinct primary keys, fetched through the queryset of
    [to_queryset], come once each, in the order in which their
    identifiers first occur among the hits. *)
Lemma fetch_in_first_hit_order (table : list Row) (bound : Model)
    (ids : list PK) :
  NoDup (map row_pk table) →
  map row_pk
    (search.fetch row_pk table
       {| search.model := bound;
          search.pk__in := ids;
          search.order_by := Some (search.Case (search.whens_from 0 ids)) |})
  = filter (λ id, id ∈ map row_pk table) (first_occurrences ids).
Proof.
  intros Htable. unfold search.fetch.
  cbn [search.pk__in search.order_by search.order_key].
  set (position := search.case_value (search.whens_from 0 ids)).
  set (by_key := λ r1 r2 : Row,
         search.key_le (position (row_pk r1)) (position (row_pk r2))).
  set (by_position := λ a b : PK, search.key_le (position a) (position b)).
  assert (Transitive by_key) as Htrans.
  { intros x y z. apply key_le_trans. }
  assert (Total by_key) as Htotal.
  { intros x y. apply key_le_total. }
  apply (StronglySorted_unique_strong by_position).
  - intros x1 x2 _ Hx2 H12 H21.
    apply list_elem_of_filter in Hx2 as [_ Hx2].
    rewrite elem_of_first_occurrences in Hx2.
    unfold by_position, position in *.
    destruct (case_value_elem ids 0 x2 Hx2) as [v2 Hv2].
    rewrite Hv2 in H12, H21.
    destruct (search.case_value (search.whens_from 0 ids) x1)
      as [v1|] eqn:Hv1; [|done].
    apply case_value_lookup in Hv1 as (i1 & -> & Hi1).
    apply case_value_lookup in Hv2 as (i2 & -> & Hi2). simpl in *.
    assert (i1 = i2) as -> by lia. congruence.
  - apply (StronglySorted_fmap row_pk by_key by_position); [done|].
    apply StronglySorted_merge_sort; done.
  - apply StronglySorted_filter, first_occurrences_by_position.
  - apply NoDup_Permutation.
    + rewrite merge_sort_Permutation.
      eapply sublist_NoDup; [exact Htable|].
      apply (fmap_sublist row_pk), sublist_filter.
    + apply NoDup_filter, NoDup_first_occurrences.
    + intros x. rewrite merge_sort_Permutation.
      rewrite list_elem_of_fmap, list_elem_of_filter,
        elem_of_first_occurrences.
      split.
      * intros (row & -> & Hrow).
        apply list_elem_of_filter in Hrow as [Hin Hrow].
        split; [|done]. by apply list_elem_of_fmap_2.
      * intros [Hx Hin]. apply list_elem_of_fmap in Hx as (row & -> & Hrow).
        exists row. split; [done|]. by apply list_elem_of_filter.
Qed.

(** X21. Hits may repeat an identifier (one document found in several
    indices).  [to_queryset] then passes the identifiers on as they are,
    with one [CASE] clause per hit, and the rows fetched from a table
    with distinct primary keys come once each, in the order in which
    their identifiers first occur among the hits; identifiers without a
    row are skipped. *)
Theorem to_queryset_repeated_hits_first_position
    (self : Srch) (table : list Row) :
  let hits :=
    match search._response self with
    | Some response => response
    | None => es_search (search.source_excludes self ["*"])
    end in
  let ids := map search.meta_id hits in
  let run := search.to_queryset es_search self true in
  NoDup (map row_pk table) →
  search.pk__in run.2 = ids
  ∧ (∃ whens,
       search.order_by run.2 = Some (search.Case whens)
       ∧ map search.when_pk whens = ids)
  ∧ map row_pk (search.fetch row_pk table run.2)
    = filter (λ id, id ∈ map row_pk table) (first_occurrences ids).
Proof.
  cbv zeta. intros Htable. unfold search.to_queryset.
  destruct (search._response self) as [response|];
    cbn [snd search.model search.pk__in search.order_by];
    (split; [done|]); (split; [|by apply fetch_in_first_hit_order]);
    eexists; (split; [reflexivity|]); apply whens_from_pks.
Qed.

Lemma filter_in_nothing (table : list Row) :
  filter (λ row : Row, row_pk row ∈ @nil PK) table = [].
Proof.
  induction table as [|row table IH]; [done|].
  rewrite filter_cons, decide_False; [done|]. apply not_elem_of_nil.
Qed.

(** X22. A [SearchNone] stands for a search that found nothing:
    [to_queryset] on it sends no search to the cluster and its queryset
    selects no row of any table. *)
Theorem search_none_selects_nothing
    (kwargs : Request) (bound : Model) (keep_order : bool)
    (table : list Row) :
  let run := search.to_queryset es_search (SearchNone kwargs bound) keep_order in
  run.1 = []
  ∧ search.model run.2 = bound
  ∧ search.pk__in run.2 = []
  ∧ search.fetch row_pk table run.2 = [].
Proof.
  cbv zeta. unfold search.to_queryset, search.fetch, SearchNone.
  cbn [search._response search._model map].
  by destruct keep_order;
    cbn [fst snd search.model search.pk__in search.order_by];
    rewrite filter_in_nothing.
Qed.

End MoreMaterializerFacts.

Section ClassmethodFacts.

Context {Instance Value Related PK Model : Type}.

Variable settings : Settings.
Variable _default_index : pyindex → pyindex.
Variable django_model : Model.

Local Abbreviation Doc := (DocType Instance Value Related).

(** X23. [search] names the indices for the language [get_language()]
    reports when it is called, [LANGUAGE_ENGLISH] when it reports none
    or an empty one, and leaves the translation context as it is: on
    the custom naming path and for a list of names, the search is bound
    to the model, carries no response yet, and its indices are the
    names formatted with that language.  It addresses the connection
    asked for; asked for none, or for an empty alias, it addresses the
    connection the document's index is bound to. *)
Theorem search_names_indices_for_active_language
    (cls : Doc) (alias : option string) (name : string)
    (names : list string) (active : Lang) :
  getattr (ELASTICSEARCH_DSL_TRANSLATION_ENABLED settings) false
  && truthy (getattr (ES_INDEX_PREFIX settings) "")
  && truthy (getattr (ES_INDEX_SUFFIX settings) "") = true →
  let language :=
    match get_language active with
    | Some (String _ _ as reported) => reported
    | _ => LANGUAGE_ENGLISH settings
    end in
  documents.search (PK := PK) settings _default_index django_model cls
    alias (Some (IndexSeq (name :: names))) active
  = (Ok {| search.request :=
             {| connection :=
                  match alias with
                  | Some (String _ _ as asked) => asked
                  | _ => _index_using cls
                  end;
                index :=
                  IndexSeq
                    (map (λ base,
                            custom_index_format
                              (getattr (ES_INDEX_PREFIX settings) "") base
                              language true
                              (getattr (ES_INDEX_SUFFIX settings) ""))
                       (name :: names));
                doc_type := _doc_type_name cls |};
           search._source := None;
           search._model := django_model;
           search._response := None |},
     active).
Proof.
  intros Hgate language. unfold documents.search, observe. f_equal.
  cbn [index_or index_truthy].
  destruct (get_custom_index_name_seq settings _default_index (name :: names)
              (get_language active)) as [_ ->].
  rewrite Hgate. cbn [rbind].
  apply andb_prop in Hgate as [[-> _]%andb_prop _].
  assert (documents._get_using cls alias
          = match alias with
            | Some (String _ _ as asked) => asked
            | _ => _index_using cls
            end) as ->.
  { unfold documents._get_using, str_or. by destruct alias as [[|c asked]|]. }
  assert (str_or (get_language active) (LANGUAGE_ENGLISH settings) = language)
    as ->.
  { subst language. unfold str_or.
    by destruct (get_language active) as [[|c reported]|]. }
  do 4 f_equal. apply map_ext. intros base.
  by rewrite custom_index_format_spec.
Qed.

(** X24. [none] is [search] with an empty response cached on the
    result: it addresses the same connection and indices, is bound to
    the same model, and fails exactly when [search] fails, with the
    same exception. *)
Theorem none_is_search_with_empty_response
    (cls : Doc) (alias : option string) (i : option pyindex) (active : Lang) :
  documents.none (PK := PK) settings _default_index django_model cls alias i
    active
  = (rbind
       (documents.search (PK := PK) settings _default_index django_model cls
          alias i active).1
       (λ s, Ok (SearchNone (search.request s) (search._model s))),
     (documents.search (PK := PK) settings _default_index django_model cls
        alias i active).2).
Proof.
  unfold documents.none, documents.search, observe. cbn [fst snd].
  by destruct (get_custom_index_name _ _ _ _).
Qed.

(** X10. With translation enabled and neither prefix nor suffix, the
    names computed for a list are the ones [_format_index_language]
    gives, handed to [_default_index]. *)
Theorem names_without_affixes_follow_format_index_language
    (names : list string) (language : option string) :
  getattr (ELASTICSEARCH_DSL_TRANSLATION_ENABLED settings) false = true →
  getattr (ES_INDEX_PREFIX settings) "" = "" →
  getattr (ES_INDEX_SUFFIX settings) "" = "" →
  get_custom_index_name settings _default_index (IndexSeq names) language
  = Ok (_default_index
          (IndexSeq
             (map (λ name,
                     _format_index_language name
                       (str_or language (LANGUAGE_ENGLISH settings)))
                names))).
Proof.
  intros Henabled Hprefix Hsuffix.
  destruct (get_custom_index_name_seq settings _default_index names language)
    as [_ ->].
  by rewrite Henabled, Hprefix, Hsuffix.
Qed.

End ClassmethodFacts.

Lemma to_queryset_repeated_hits_first_position_witness :
  let run := search.to_queryset repeating_search sliced_search true in
  NoDup (map fst article_table)
  ∧ search.pk__in run.2 = [30; 99; 10; 30]
  ∧ search.fetch fst article_table run.2 = [ (30, "thirty"); (10, "ten") ]
  ∧ map fst (search.fetch fst article_table run.2) = [30; 10].
Proof.
  intros run.
  assert (NoDup (map fst article_table)) as Htable.
  { apply (bool_decide_unpack _). by vm_compute. }
  split; [exact Htable|].
  destruct (to_queryset_repeated_hits_first_position repeating_search fst
              sliced_search article_table Htable) as (Hpks & _ & Horder).
  split; [exact Hpks|]. split; [by vm_compute|].
  subst run. rewrite Horder. by vm_compute.
Defined.

Lemma search_names_indices_for_active_language_witness :
  documents.search (PK := nat) translated_settings
    (dsl_default_index (IndexName "articles")) "Article"
    (article_doc (IndexName "articles") None) (Some "")
    (Some (IndexSeq ["articles"; "authors"])) (Some "fr")
  = (Ok {| search.request :=
             {| connection := "default";
                index := IndexSeq ["dev-articles-fr-v1"; "dev-authors-fr-v1"];
                doc_type := "doc" |};
           search._source := None;
           search._model := "Article";
           search._response := None |},
     Some "fr").
Proof.
  by rewrite (search_names_indices_for_active_language translated_settings
                (dsl_default_index (IndexName "articles")) "Article"
                (article_doc (IndexName "articles") None) (Some "") "articles"
                ["authors"] (Some "fr") eq_refl).
Defined.

Lemma names_without_affixes_follow_format_index_language_witness :
  get_custom_index_name
    {| ELASTICSEARCH_DSL_TRANSLATION_ENABLED := Some true;
       LANGUAGE_ENGLISH := "en";
       LANGUAGE_ANALYSERS := ["en"; "fr"];
       ES_INDEX_PREFIX := None;
       ES_INDEX_SUFFIX := None;
       ELASTICSEARCH_DSL := ["default"];
       ELASTICSEARCH_DSL_LOAD_PER_QUERY := None;
       ELASTICSEARCH_DSL_CHUNK_SIZE := None;
       ELASTICSEARCH_DSL_CHUNK_BYTES := None |}
    (dsl_default_index (IndexName "articles")) (IndexSeq ["articles"]) None
  = Ok (IndexSeq ["articles-en"]).
Proof.
  by rewrite (names_without_affixes_follow_format_index_language
                {| ELASTICSEARCH_DSL_TRANSLATION_ENABLED := Some true;
                   LANGUAGE_ENGLISH := "en";
                   LANGUAGE_ANALYSERS := ["en"; "fr"];
                   ES_INDEX_PREFIX := None;
                   ES_INDEX_SUFFIX := None;
                   ELASTICSEARCH_DSL := ["default"];
                   ELASTICSEARCH_DSL_LOAD_PER_QUERY := None;
                   ELASTICSEARCH_DSL_CHUNK_SIZE := None;
                   ELASTICSEARCH_DSL_CHUNK_BYTES := None |}
                (dsl_default_index (IndexName "articles")) ["articles"] None
                eq_refl eq_refl eq_refl).
Defined.
